(** * Sunny Broccoli Volley: the simulation tick and the commentary gateway

    A shallow embedding of [src/components/GameCanvas.tsx] (the physics,
    collision, opponent and scoring code of [update]), of
    [src/services/geminiService.ts] ([generateCommentary]) and of the
    declarations of [types.ts].

    A TypeScript [number] is an IEEE 754 binary64 value, so coordinates,
    velocities and radii are Rocq's primitive [float]s (the same format, with
    round-to-nearest-even operations; a decimal literal such as 0.995 denotes
    the nearest binary64 value in both languages), and [Math.sqrt],
    [Math.abs] and [Math.max] are given with their treatment of NaN.  The two
    score counters start at 0 and only ever grow by 1; they are integers
    ([Z]). *)

From Stdlib Require Import ZArith Bool List String Lia.
From Stdlib Require Import Floats.
From Stdlib Require Import DecimalString.
Import ListNotations.

Set Warnings "-inexact-float".

Open Scope float_scope.

(** ** JavaScript numbers *)

Module Math.

(** [Math.sqrt] and [Math.abs] are the IEEE operations. *)
Definition sqrt (v : float) : float := PrimFloat.sqrt v.
Definition abs (v : float) : float := PrimFloat.abs v.

(** [Math.max(a, b)]: NaN as soon as one argument is NaN, and [+0] is
    larger than [-0]. *)
Definition max (a b : float) : float :=
  if is_nan a || is_nan b then nan
  else if a <? b then b
  else if b <? a then a
  else if get_sign a then b else a.

(** [Math.pow(v, 2)]: the square of [v]. *)
Definition pow2 (v : float) : float := v * v.

End Math.

(** The relational operators [<], [>] and [>=] on numbers: every comparison
    with NaN is [false]. *)
Module Num.

Definition lt (a b : float) : bool := a <? b.
Definition gt (a b : float) : bool := b <? a.
Definition ge (a b : float) : bool := b <=? a.

End Num.

(** ** types.ts *)

Inductive GameState := MENU | PLAYING | POINT_SCORED | GAME_OVER.

Record Vector := mkVector { x : float; y : float }.

Record Entity := mkEntity {
  pos : Vector;
  vel : Vector;
  radius : float;
  color : string;
  onGround : bool
}.

Record GameScore := mkScore { player : Z; cpu : Z }.

Inductive Mood := excited | sarcastic | neutral | encouraging.

Record CommentaryResponse := mkCommentary { text : string; mood : Mood }.

(** The string literal type ['player' | 'cpu']. *)
Inductive Who := Player | Cpu.

(** Field assignments ([e.pos.x = v], [e.vel = v], ...). *)
Definition set_pos (e : Entity) (p : Vector) : Entity :=
  mkEntity p (vel e) (radius e) (color e) (onGround e).
Definition set_vel (e : Entity) (v : Vector) : Entity :=
  mkEntity (pos e) v (radius e) (color e) (onGround e).
Definition set_onGround (e : Entity) (g : bool) : Entity :=
  mkEntity (pos e) (vel e) (radius e) (color e) g.
Definition set_pos_x (e : Entity) (v : float) : Entity :=
  set_pos e (mkVector v (y (pos e))).
Definition set_pos_y (e : Entity) (v : float) : Entity :=
  set_pos e (mkVector (x (pos e)) v).
Definition set_vel_x (e : Entity) (v : float) : Entity :=
  set_vel e (mkVector v (y (vel e))).
Definition set_vel_y (e : Entity) (v : float) : Entity :=
  set_vel e (mkVector (x (vel e)) v).

(** ** components/GameCanvas.tsx *)

Module GameCanvas.

(** Physics constants. *)
Definition GRAVITY : float := 0.5.
Definition JUMP_FORCE : float := -12.
Definition MOVE_SPEED : float := 6.
Definition CANVAS_WIDTH : float := 800.
Definition CANVAS_HEIGHT : float := 400.
Definition NET_HEIGHT : float := 100.
Definition NET_X : float := CANVAS_WIDTH / 2.
Definition PLAYER_RADIUS : float := 40.
Definition BALL_RADIUS : float := 12.
Definition BOUNCE : float := 0.7.

(** The mutable cells of the component: [playerRef], [cpuRef], [ballRef]
    and [scoreRef].  [keysRef] is an input of the tick. *)
Record Refs := mkRefs {
  playerRef : Entity;
  cpuRef : Entity;
  ballRef : Entity;
  scoreRef : GameScore
}.

(** [keysRef.current]: a key code that was never pressed reads as
    [undefined], which is falsy. *)
Definition Keys := string -> bool.

(** The callbacks the component receives as props; a tick returns the
    calls it made, in order. *)
Inductive Call :=
| setScore (s : GameScore)
| onPointEnd (winner : Who)
| setGameState (g : GameState).

(** The initial contents of the cells. *)
Definition initialRefs : Refs :=
  mkRefs
    (mkEntity (mkVector 200 400) (mkVector 0 0) PLAYER_RADIUS "#ef4444" true)
    (mkEntity (mkVector 600 400) (mkVector 0 0) PLAYER_RADIUS "#3b82f6" true)
    (mkEntity (mkVector 200 200) (mkVector 0 0) BALL_RADIUS "#ffffff" false)
    (mkScore 0 0).

(** [resetPositions(server)] *)
Definition resetPositions (server : Who) (r : Refs) : Refs :=
  let p := set_onGround
             (set_vel (set_pos (playerRef r) (mkVector 200 CANVAS_HEIGHT))
                      (mkVector 0 0)) true in
  let c := set_onGround
             (set_vel (set_pos (cpuRef r) (mkVector 600 CANVAS_HEIGHT))
                      (mkVector 0 0)) true in
  let b := set_pos (ballRef r)
             (match server with
              | Player => mkVector 200 250
              | Cpu => mkVector 600 250
              end) in
  let b := set_vel b (mkVector 0 (-9)) in
  mkRefs p c b (scoreRef r).

(** *** [checkCircleCollision(c1, c2)]: [c1] is a body, [c2] the ball;
    only [c2] is written. *)
Definition dist (c1 c2 : Entity) : float :=
  let dx := x (pos c1) - x (pos c2) in
  let dy := y (pos c1) - y (pos c2) in
  Math.sqrt (dx * dx + dy * dy).

Definition collides (c1 c2 : Entity) : bool :=
  Num.lt (dist c1 c2) (radius c1 + radius c2).

(** [force = Math.max(14, speed * 1.1)], with [speed] the length of
    [c2.vel]. *)
Definition pop_force (c2 : Entity) : float :=
  let speed := Math.sqrt (x (vel c2) * x (vel c2) + y (vel c2) * y (vel c2)) in
  Math.max 14 (speed * 1.1).

Definition checkCircleCollision (c1 c2 : Entity) : Entity :=
  let dx := x (pos c1) - x (pos c2) in
  let dy := y (pos c1) - y (pos c2) in
  let dist := Math.sqrt (dx * dx + dy * dy) in
  if Num.lt dist (radius c1 + radius c2) then
    let nx := dx / dist in
    let ny := dy / dist in
    let force := pop_force c2 in
    let c2 := set_vel_x c2 (- nx * force + x (vel c1) * 0.5) in
    let c2 := set_vel_y c2 (- ny * force + y (vel c1) * 0.5 - 4) in
    let overlap := (radius c1 + radius c2) - dist in
    let c2 := set_pos_x c2 (x (pos c2) - nx * overlap) in
    let c2 := set_pos_y c2 (y (pos c2) - ny * overlap) in
    c2
  else c2.

(** *** The stages of [update] *)

(** Player movement, from the keys held. *)
Definition player_movement (keys : Keys) (p : Entity) : Entity :=
  let p :=
    if keys "ArrowLeft"%string || keys "KeyA"%string
    then set_vel_x p (- MOVE_SPEED)
    else if keys "ArrowRight"%string || keys "KeyD"%string
         then set_vel_x p MOVE_SPEED
         else set_vel_x p 0 in
  if (keys "ArrowUp"%string || keys "KeyW"%string) && onGround p
  then set_onGround (set_vel_y p JUMP_FORCE) false
  else p.

(** CPU AI: the target, the horizontal velocity and the jump test. *)
Definition cpu_targetX (ballX : float) : float :=
  if Num.gt ballX (NET_X - 50) then ballX + 20 else 650.

Definition cpu_velX (cpuX ballX : float) : float :=
  let diff := cpu_targetX ballX - cpuX in
  if Num.gt (Math.abs diff) 5
  then (if Num.gt diff 0 then MOVE_SPEED * 0.85 else (- MOVE_SPEED) * 0.85)
  else 0.

Definition cpu_jumps (c ball : Entity) : bool :=
  let cpuX := x (pos c) in
  let ballX := x (pos ball) in
  Num.gt ballX NET_X
  && Num.lt (Math.abs (ballX - cpuX)) 50
  && Num.gt (y (pos ball)) 200
  && Num.lt (y (pos ball)) 350
  && onGround c.

Definition cpu_ai (c ball : Entity) : Entity :=
  let c' := set_vel_x c (cpu_velX (x (pos c)) (x (pos ball))) in
  if cpu_jumps c ball
  then set_onGround (set_vel_y c' JUMP_FORCE) false
  else c'.

(** Physics update of a body: integration, then floor, walls and net.
    [p === player] and [p === cpu] are the test of which cell [p] is. *)
Definition integrate_body (p : Entity) : Entity :=
  let p := set_vel_y p (y (vel p) + GRAVITY) in
  let p := set_pos_x p (x (pos p) + x (vel p)) in
  set_pos_y p (y (pos p) + y (vel p)).

Definition floor_collision (p : Entity) : Entity :=
  if Num.gt (y (pos p)) CANVAS_HEIGHT
  then set_onGround (set_vel_y (set_pos_y p CANVAS_HEIGHT) 0) true
  else p.

Definition wall_collision (p : Entity) : Entity :=
  let p := if Num.lt (x (pos p)) (radius p) then set_pos_x p (radius p) else p in
  if Num.gt (x (pos p)) (CANVAS_WIDTH - radius p)
  then set_pos_x p (CANVAS_WIDTH - radius p)
  else p.

Definition net_collision (who : Who) (p : Entity) : Entity :=
  match who with
  | Player =>
      if Num.gt (x (pos p)) (NET_X - radius p)
      then set_pos_x p (NET_X - radius p) else p
  | Cpu =>
      if Num.lt (x (pos p)) (NET_X + radius p)
      then set_pos_x p (NET_X + radius p) else p
  end.

Definition body_physics (who : Who) (p : Entity) : Entity :=
  net_collision who (wall_collision (floor_collision (integrate_body p))).

(** Ball physics: integration with the lighter gravity and air
    resistance, then walls, ceiling and net. *)
Definition integrate_ball (b : Entity) : Entity :=
  let b := set_vel_y b (y (vel b) + GRAVITY * 0.8) in
  let b := set_vel_x b (x (vel b) * 0.995) in
  let b := set_vel_y b (y (vel b) * 0.995) in
  let b := set_pos_x b (x (pos b) + x (vel b)) in
  set_pos_y b (y (pos b) + y (vel b)).

Definition wall_bounce (b : Entity) : Entity :=
  let b :=
    if Num.lt (x (pos b)) (radius b)
    then set_vel_x (set_pos_x b (radius b)) (x (vel b) * - BOUNCE)
    else b in
  if Num.gt (x (pos b)) (CANVAS_WIDTH - radius b)
  then set_vel_x (set_pos_x b (CANVAS_WIDTH - radius b)) (x (vel b) * - BOUNCE)
  else b.

Definition ceiling_bounce (b : Entity) : Entity :=
  if Num.lt (y (pos b)) (radius b)
  then set_vel_y (set_pos_y b (radius b)) (y (vel b) * - BOUNCE)
  else b.

Definition net_ball (b : Entity) : Entity :=
  let netTop := CANVAS_HEIGHT - NET_HEIGHT in
  let distToNetTop :=
    Math.sqrt (Math.pow2 (x (pos b) - NET_X) + Math.pow2 (y (pos b) - netTop)) in
  if Num.lt distToNetTop (radius b + 5) then
    let dx := x (pos b) - NET_X in
    let dy := y (pos b) - netTop in
    let len := Math.sqrt (dx * dx + dy * dy) in
    let nx := dx / len in
    let ny := dy / len in
    let dot := x (vel b) * nx + y (vel b) * ny in
    let b := set_vel_x b ((x (vel b) - 2 * dot * nx) * BOUNCE) in
    let b := set_vel_y b ((y (vel b) - 2 * dot * ny) * BOUNCE) in
    let pen := (radius b + 5) - distToNetTop in
    let b := set_pos_x b (x (pos b) + nx * pen) in
    set_pos_y b (y (pos b) + ny * pen)
  else if Num.gt (y (pos b)) netTop then
    if Num.lt (Math.abs (x (pos b) - NET_X)) (radius b + 5) then
      let b := set_vel_x b (x (vel b) * - BOUNCE) in
      if Num.lt (x (pos b)) NET_X
      then set_pos_x b (NET_X - radius b - 5)
      else set_pos_x b (NET_X + radius b + 5)
    else b
  else b.

(** Scoring: the ball on the ground ends the point. *)
Definition scoring (r : Refs) : Refs * list Call :=
  let ball := ballRef r in
  if Num.ge (y (pos ball)) (CANVAS_HEIGHT - radius ball) then
    if Num.lt (x (pos ball)) NET_X then
      let sc := mkScore (player (scoreRef r)) (cpu (scoreRef r) + 1)%Z in
      let r := mkRefs (playerRef r) (cpuRef r) (ballRef r) sc in
      (resetPositions Player r,
       [setScore sc; onPointEnd Cpu; setGameState POINT_SCORED])
    else
      let sc := mkScore (player (scoreRef r) + 1)%Z (cpu (scoreRef r)) in
      let r := mkRefs (playerRef r) (cpuRef r) (ballRef r) sc in
      (resetPositions Cpu r,
       [setScore sc; onPointEnd Player; setGameState POINT_SCORED])
  else (r, []).

(** The tick up to the end of collision resolution. *)
Definition resolve (keys : Keys) (r : Refs) : Refs :=
  let player := player_movement keys (playerRef r) in
  let cpu := cpu_ai (cpuRef r) (ballRef r) in
  let player := body_physics Player player in
  let cpu := body_physics Cpu cpu in
  let ball := net_ball (ceiling_bounce (wall_bounce (integrate_ball (ballRef r)))) in
  let ball := checkCircleCollision player ball in
  let ball := checkCircleCollision cpu ball in
  mkRefs player cpu ball (scoreRef r).

(** [update()], with the [gameState] prop of the render it closes over. *)
Definition update (gameState : GameState) (keys : Keys) (r : Refs)
  : Refs * list Call :=
  match gameState with
  | PLAYING => scoring (resolve keys r)
  | _ => (r, [])
  end.

(** *** The key handlers, the mount effect and what [draw] reads *)

(** [handleKeyDown] and [handleKeyUp]: [keysRef.current[e.code]] becomes
    [true] and [false]; the other codes are left alone. *)
Definition handleKeyDown (code : string) (keys : Keys) : Keys :=
  fun c => if String.eqb c code then true else keys c.

Definition handleKeyUp (code : string) (keys : Keys) : Keys :=
  fun c => if String.eqb c code then false else keys c.

(** The effect that runs once the component is mounted:
    [resetPositions('player')]. *)
Definition mounted : Refs := resetPositions Player initialRefs.

(** [drawBroccoli(e)]: a body looks at the net, and its eyes are shifted
    the way it looks. *)
Definition facingRight (e : Entity) : bool := Num.lt (x (pos e)) NET_X.

Definition eyeXOffset (e : Entity) : float := if facingRight e then 8 else -8.

End GameCanvas.

(** ** services/geminiService.ts *)

Module geminiService.

(** A thrown value, and a computation that returns or throws. *)
Inductive Exn := Error (message : string).

Definition Try (A : Type) : Type := (Exn + A)%type.

Definition ret {A : Type} (v : A) : Try A := inr v.
Definition throw {A : Type} (e : Exn) : Try A := inl e.
Definition bind {A B : Type} (m : Try A) (k : A -> Try B) : Try B :=
  match m with
  | inl e => inl e
  | inr v => k v
  end.
Definition try_catch {A : Type} (body : Try A) (handler : Exn -> Try A) : Try A :=
  match body with
  | inl e => handler e
  | inr v => inr v
  end.

Notation "v <- m ;; k" := (bind m (fun v => k))
  (at level 61, m at next level, right associativity).

(** The promise an [async] function returns, once settled. *)
Inductive Promise (A : Type) :=
| Fulfilled (v : A)
| Rejected (e : Exn).
Arguments Fulfilled {A} v.
Arguments Rejected {A} e.

Definition settle {A : Type} (m : Try A) : Promise A :=
  match m with
  | inl e => Rejected e
  | inr v => Fulfilled v
  end.

(** The request of [ai.models.generateContent] and the part of its answer
    that is read: [response.text], a string or [undefined]. *)
Record Request := mkRequest { model : string; contents : string }.
Record Response := mkResponse { response_text : option string }.

Definition quote : string := String (Ascii.ascii_of_nat 34) EmptyString.
Definition newline : string := String (Ascii.ascii_of_nat 10) EmptyString.

(** A score in a template literal: its decimal digits. *)
Definition show (n : Z) : string := NilEmpty.string_of_int (Z.to_int n).

Definition prompt (playerScore cpuScore : Z) (lastEvent : string) : string :=
  (newline
   ++ "    You are a high-energy, witty beach volleyball commentator. " ++ newline
   ++ "    The current score is: Mr. B " ++ show playerScore
   ++ " - Sören sein Vater " ++ show cpuScore ++ "." ++ newline
   ++ "    The last event was: " ++ quote ++ lastEvent ++ quote ++ "." ++ newline
   ++ "    " ++ newline
   ++ "    Provide a short, punchy commentary (max 1 sentence) in German. " ++ newline
   ++ "    Also select a mood for the commentary." ++ newline
   ++ "  ")%string.

(** The two literal responses of the source. *)
Definition unavailable : CommentaryResponse :=
  mkCommentary "AI Commentary unavailable (Check API Key)." neutral.
Definition offline : CommentaryResponse :=
  mkCommentary "Was für ein Spiel! (AI Offline)" neutral.

Section Gateway.

(** The client of the service, its constructor, its one call, and
    [JSON.parse] followed by the cast to [CommentaryResponse] (a text that
    does not parse throws). *)
Variable GoogleGenAI : Type.
Variable new_GoogleGenAI : string -> Try GoogleGenAI.
Variable generateContent : GoogleGenAI -> Request -> Try Response.
Variable JSON_parse : string -> Try CommentaryResponse.

(** The module initialiser: [ai] stays [null] without an [API_KEY] (an
    empty one is falsy) or when the constructor throws. *)
Definition init_ai (API_KEY : option string) : option GoogleGenAI :=
  match API_KEY with
  | None => None
  | Some key =>
      if String.eqb key "" then None
      else match new_GoogleGenAI key with
           | inl _ => None
           | inr client => Some client
           end
  end.

(** The [try] block: the call, the test of [response.text] (absent or
    empty, it is falsy) and the parse.  The handler logs the error to the
    console and returns [offline]; the log is not modelled. *)
Definition attempt (ai : GoogleGenAI)
    (playerScore cpuScore : Z) (lastEvent : string)
  : Try CommentaryResponse :=
  response <- generateContent ai
                (mkRequest "gemini-2.5-flash"
                   (prompt playerScore cpuScore lastEvent)) ;;
  jsonText <- match response_text response with
              | None => throw (Error "No response from AI")
              | Some t =>
                  if String.eqb t ""
                  then throw (Error "No response from AI")
                  else ret t
              end ;;
  JSON_parse jsonText.

Definition generateCommentary (ai : option GoogleGenAI)
    (playerScore cpuScore : Z) (lastEvent : string)
  : Promise CommentaryResponse :=
  match ai with
  | None => Fulfilled unavailable
  | Some ai =>
      settle
        (try_catch
           (attempt ai playerScore cpuScore lastEvent)
           (fun _ => ret offline))
  end.

End Gateway.

End geminiService.

(** ** App.tsx *)

Module App.

(** The state of the component: [gameState], [score], [commentary] and
    [isCommentating]. *)
Record State := mkState {
  gameState : GameState;
  score : GameScore;
  commentary : CommentaryResponse;
  isCommentating : bool
}.

Definition initialState : State :=
  mkState MENU (mkScore 0 0)
    (mkCommentary "Willkommen am Strand! Wer holt sich den Sieg?" excited)
    false.

(** *** [handlePointEnd(winner)] *)

Definition eventDescription (winner : Who) : string :=
  match winner with
  | Player => "Mr. B erzielt einen Punkt mit einem Smash!"
  | Cpu => "Sören sein Vater überlistet Mr. B!"
  end.

(** The arguments [generateCommentary] is called with: the score of the
    render the handler closes over, with the winner's point added. *)
Definition commentaryArguments (score : GameScore) (winner : Who)
  : Z * Z * string :=
  ((player score + match winner with Player => 1 | Cpu => 0 end)%Z,
   (cpu score + match winner with Cpu => 1 | Player => 0 end)%Z,
   eventDescription winner).

(** The state setters the handler calls, and the log of its [catch]. *)
Inductive Effect :=
| setIsCommentating (b : bool)
| setCommentary (c : CommentaryResponse)
| console_error (e : geminiService.Exn).

(** The handler, given [generateCommentary]: the flag is raised, the promise
    is awaited, its result is shown ([try]) or its error logged ([catch]),
    and the flag is lowered ([finally]). *)
Definition handlePointEnd
    (generateCommentary :
       Z -> Z -> string -> geminiService.Promise CommentaryResponse)
    (score : GameScore) (winner : Who) : list Effect :=
  let '(playerScore, cpuScore, lastEvent) := commentaryArguments score winner in
  setIsCommentating true
  :: match generateCommentary playerScore cpuScore lastEvent with
     | geminiService.Fulfilled result => [setCommentary result]
     | geminiService.Rejected e => [console_error e]
     end
  ++ [setIsCommentating false].

Definition perform (s : State) (e : Effect) : State :=
  match e with
  | setIsCommentating b => mkState (gameState s) (score s) (commentary s) b
  | setCommentary c => mkState (gameState s) (score s) c (isCommentating s)
  | console_error _ => s
  end.

(** *** The component and its canvas *)

(** What the canvas is given as props: [setScore] and [setGameState] are the
    state setters, [onPointEnd] is [handlePointEnd]. *)
Definition deliver (s : State) (c : GameCanvas.Call) : State :=
  match c with
  | GameCanvas.setScore sc =>
      mkState (gameState s) sc (commentary s) (isCommentating s)
  | GameCanvas.setGameState g =>
      mkState g (score s) (commentary s) (isCommentating s)
  | GameCanvas.onPointEnd _ => s
  end.

(** The requests for a commentary that the calls of a tick start, each with
    the score of the render the tick runs in. *)
Definition requests (s : State) (calls : list GameCanvas.Call)
  : list (Z * Z * string) :=
  flat_map (fun c => match c with
                     | GameCanvas.onPointEnd winner =>
                         [commentaryArguments (score s) winner]
                     | _ => []
                     end) calls.

(** The component with the cells of its canvas. *)
Record World := mkWorld { state : State; refs : GameCanvas.Refs }.

Definition initialWorld : World := mkWorld initialState GameCanvas.mounted.

(** What happens to it: the start button is clicked (it is rendered in
    [MENU] only), the timer of the [POINT_SCORED] effect fires (it is
    cleared as soon as the phase changes), or a frame runs [update] with the
    keys held.  A render separates two events: the state an event sets is
    the state the next one reads. *)
Inductive Event :=
| StartClicked
| TimerFired
| Frame (keys : GameCanvas.Keys).

Definition setPhase (w : World) (g : GameState) : World :=
  mkWorld (mkState g (score (state w)) (commentary (state w))
             (isCommentating (state w)))
          (refs w).

Definition step (w : World) (e : Event) : World :=
  match e with
  | StartClicked =>
      match gameState (state w) with
      | MENU => setPhase w PLAYING
      | _ => w
      end
  | TimerFired =>
      match gameState (state w) with
      | POINT_SCORED => setPhase w PLAYING
      | _ => w
      end
  | Frame keys =>
      let '(r, calls) :=
        GameCanvas.update (gameState (state w)) keys (refs w) in
      mkWorld (fold_left deliver calls (state w)) r
  end.

(** The requests for a commentary an event starts. *)
Definition started (w : World) (e : Event) : list (Z * Z * string) :=
  match e with
  | Frame keys =>
      requests (state w)
        (snd (GameCanvas.update (gameState (state w)) keys (refs w)))
  | _ => []
  end.

End App.

(** * Vocabulary of the statements

    The shapes of binary64 values, the quantities the properties speak of
    and the situations they are tried on. *)

Import GameCanvas.
Import geminiService.

(** The shape of a value: not NaN, and finite (a zero or a finite
    number). *)
Definition sf_nan (s : spec_float) : bool :=
  match s with S754_nan => true | _ => false end.

Definition sf_finite (s : spec_float) : bool :=
  match s with S754_zero _ | S754_finite _ _ _ => true | _ => false end.

Definition sf_sign (s : spec_float) : bool :=
  match s with
  | S754_zero b | S754_infinity b | S754_finite b _ _ => b
  | S754_nan => false
  end.

(** The result of rounding: a zero, a finite number or an infinity of the
    sign asked for. *)
Definition rounded (sx : bool) (s : spec_float) : Prop :=
  sf_nan s = false /\ sf_sign s = sx.

(** Two snapshots of the opponent and the ball that agree on the positions
    and on the opponent's [onGround], and on nothing else. *)
Definition snapshot_a : Entity * Entity :=
  (mkEntity (mkVector 600 400) (mkVector 0 0) PLAYER_RADIUS "#3b82f6" true,
   mkEntity (mkVector 580 300) (mkVector 3 (-2)) BALL_RADIUS "#ffffff" false).

Definition snapshot_b : Entity * Entity :=
  (mkEntity (mkVector 600 400) (mkVector 5.1 7) PLAYER_RADIUS "blue" true,
   mkEntity (mkVector 580 300) (mkVector (-8) 11) BALL_RADIUS "white" true).

(** Everybody in the air, away from the walls, the net and each other. *)
Definition mid_air : Refs :=
  mkRefs
    (mkEntity (mkVector 200 300) (mkVector 0 (-3)) PLAYER_RADIUS "#ef4444" false)
    (mkEntity (mkVector 650 250) (mkVector 0 2) PLAYER_RADIUS "#3b82f6" false)
    (mkEntity (mkVector 100 100) (mkVector 2 1) BALL_RADIUS "#ffffff" false)
    (mkScore 0 0).

(** The cells with a new score. *)
Definition with_score (r : Refs) (sc : GameScore) : Refs :=
  mkRefs (playerRef r) (cpuRef r) (ballRef r) sc.

(** The half of the court a horizontal position is in, by the test of the
    scoring code: left of the net is the player's half. *)
Definition half (px : float) : Who := if Num.lt px NET_X then Player else Cpu.

(** The ball comes to rest at (300, 399) above the left half; nobody is
    near it and no key is held. *)
Definition left_floor : Refs :=
  mkRefs
    (mkEntity (mkVector 200 400) (mkVector 0 0) PLAYER_RADIUS "#ef4444" true)
    (mkEntity (mkVector 600 400) (mkVector 0 0) PLAYER_RADIUS "#3b82f6" true)
    (mkEntity (mkVector 300 399) (mkVector 0 (-0.4)) BALL_RADIUS "#ffffff" false)
    (mkScore 2 3).

(** The same above the right half. *)
Definition right_floor : Refs :=
  mkRefs
    (mkEntity (mkVector 200 400) (mkVector 0 0) PLAYER_RADIUS "#ef4444" true)
    (mkEntity (mkVector 600 400) (mkVector 0 0) PLAYER_RADIUS "#3b82f6" true)
    (mkEntity (mkVector 500 399) (mkVector 0 (-0.4)) BALL_RADIUS "#ffffff" false)
    (mkScore 2 3).

(** No key is held. *)
Definition no_keys : Keys := fun _ => false.

(** A body in the air that moves right at 6, a ball at rest 47 to its
    right and one 47 to its left, each overlapping the body by 5. *)
Definition runner : Entity :=
  mkEntity (mkVector 200 300) (mkVector 6 0) PLAYER_RADIUS "#ef4444" false.

Definition resting_ball : Entity :=
  mkEntity (mkVector 247 300) (mkVector 0 0) BALL_RADIUS "#ffffff" false.

Definition ball_on_the_left : Entity :=
  mkEntity (mkVector 153 300) (mkVector 0 0) BALL_RADIUS "#ffffff" false.

(** The normal that points out of the body, towards the ball: the opposite
    of the code's [(nx, ny)]. *)
Definition outgoing_normal (c1 c2 : Entity) : Vector :=
  mkVector (- ((x (pos c1) - x (pos c2)) / dist c1 c2))
           (- ((y (pos c1) - y (pos c2)) / dist c1 c2)).

(** The component of the ball's new velocity along that normal. *)
Definition normal_component (c1 c2 : Entity) : float :=
  let v := vel (checkCircleCollision c1 c2) in
  let n := outgoing_normal c1 c2 in
  x v * x n + y v * y n.

(** A body that moves away from the ball it touches. *)
Definition receding_body : Entity :=
  mkEntity (mkVector 200 300) (mkVector (-6) 0) PLAYER_RADIUS "#ef4444" false.

(** A horizontal position inside the court, a radius away from both walls. *)
Definition in_court (e : Entity) : bool :=
  (radius e <=? x (pos e)) && (x (pos e) <=? CANVAS_WIDTH - radius e).

(** The player in the air in the left corner, the ball beside it against
    the wall. *)
Definition left_corner : Refs :=
  mkRefs
    (mkEntity (mkVector 40 299.5) (mkVector 0 0) PLAYER_RADIUS "#ef4444" false)
    (mkEntity (mkVector 600 400) (mkVector 0 0) PLAYER_RADIUS "#3b82f6" true)
    (mkEntity (mkVector 12 300) (mkVector 0 (-0.4)) BALL_RADIUS "#ffffff" false)
    (mkScore 0 0).

(** Both bodies have their radius, are inside the court and on their own
    side of the net. *)
Definition bodies_in_bounds (r : Refs) : Prop :=
  (radius (playerRef r) = PLAYER_RADIUS
   /\ in_court (playerRef r) = true
   /\ (x (pos (playerRef r)) <=? NET_X - radius (playerRef r)) = true)
  /\ (radius (cpuRef r) = PLAYER_RADIUS
      /\ in_court (cpuRef r) = true
      /\ (NET_X + radius (cpuRef r) <=? x (pos (cpuRef r))) = true).

(** A run of steps, one set of held keys per step, and a run of ticks of
    play. *)
Fixpoint run {A : Type} (step : Keys -> A -> A) (ticks : list Keys) (a : A) : A :=
  match ticks with
  | [] => a
  | keys :: rest => run step rest (step keys a)
  end.

Definition play (ticks : list Keys) (r : Refs) : Refs :=
  run (fun keys r => fst (update PLAYING keys r)) ticks r.

(** A ball whose centre is the centre of [receding_body]. *)
Definition concentric_ball : Entity :=
  mkEntity (mkVector 200 300) (mkVector 2 1) BALL_RADIUS "#ffffff" false.

(** A client whose call is rejected (a transport error), one that answers
    without a text, and one whose text is not JSON; a parser that accepts
    one text only. *)
Definition rejecting_call (_ : unit) (_ : Request) : Try Response :=
  throw (Error "fetch failed").
Definition empty_call (_ : unit) (_ : Request) : Try Response :=
  ret (mkResponse None).
Definition garbled_call (_ : unit) (_ : Request) : Try Response :=
  ret (mkResponse (Some "<html>"%string)).
Definition good_call (_ : unit) (_ : Request) : Try Response :=
  ret (mkResponse (Some "ok"%string)).
Definition parse_ok_only (t : string) : Try CommentaryResponse :=
  if String.eqb t "ok" then ret (mkCommentary "Ass!" excited)
  else throw (Error "SyntaxError").

(** The kinds of failure of the gateway: no client, or a client whose
    attempt fails. *)
Inductive FailureKind := NoClient | CallFailed.

(** The attempt fails when the call throws, when the answer has no text or
    an empty one, and when the text does not parse. *)
Definition call_fails {G : Type}
    (generateContent : G -> Request -> Try Response)
    (JSON_parse : string -> Try CommentaryResponse)
    (client : G) (playerScore cpuScore : Z) (lastEvent : string) : bool :=
  match generateContent client
          (mkRequest "gemini-2.5-flash" (prompt playerScore cpuScore lastEvent))
  with
  | inl _ => true
  | inr response =>
      match response_text response with
      | None => true
      | Some t =>
          if String.eqb t "" then true
          else match JSON_parse t with
               | inl _ => true
               | inr _ => false
               end
      end
  end.

(** The failure of a call of [generateCommentary], if there is one. *)
Definition failure {G : Type}
    (generateContent : G -> Request -> Try Response)
    (JSON_parse : string -> Try CommentaryResponse)
    (ai : option G) (playerScore cpuScore : Z) (lastEvent : string)
  : option FailureKind :=
  match ai with
  | None => Some NoClient
  | Some client =>
      if call_fails generateContent JSON_parse client playerScore cpuScore lastEvent
      then Some CallFailed
      else None
  end.

(** The text shown for each kind of failure. *)
Definition fallback_text (k : FailureKind) : string :=
  match k with
  | NoClient => "AI Commentary unavailable (Check API Key)."
  | CallFailed => "Was für ein Spiel! (AI Offline)"
  end.

(** The side that is not [w], and a score with a point more for [w]. *)
Definition other (w : Who) : Who :=
  match w with Player => Cpu | Cpu => Player end.

Definition bump (w : Who) (sc : GameScore) : GameScore :=
  match w with
  | Player => mkScore (player sc + 1)%Z (cpu sc)
  | Cpu => mkScore (player sc) (cpu sc + 1)%Z
  end.

(** What no tick writes: the radii, the colours and the ball's
    [onGround]. *)
Definition same_make (r r' : Refs) : Prop :=
  radius (playerRef r') = radius (playerRef r)
  /\ radius (cpuRef r') = radius (cpuRef r)
  /\ radius (ballRef r') = radius (ballRef r)
  /\ color (playerRef r') = color (playerRef r)
  /\ color (cpuRef r') = color (cpuRef r)
  /\ color (ballRef r') = color (ballRef r)
  /\ onGround (ballRef r') = onGround (ballRef r).

(** A ball whose position and velocity are NaN. *)
Definition lost (b : Entity) : Prop :=
  pos b = mkVector nan nan /\ vel b = mkVector nan nan.

(** The cells right after the hit of [concentric_hit_not_finite]: the player
    in the air, the ball lost. *)
Definition after_concentric_hit : Refs :=
  mkRefs receding_body
    (mkEntity (mkVector 600 400) (mkVector 0 0) PLAYER_RADIUS "#3b82f6" true)
    (checkCircleCollision receding_body concentric_ball)
    (mkScore 1 1).

(** The vertical state of a body: height, vertical velocity and
    [onGround]; what a jump and the physics of a body do to it. *)
Definition vertical (e : Entity) : float * float * bool :=
  (y (pos e), y (vel e), onGround e).

Definition vjump (jump : bool) (s : float * float * bool)
  : float * float * bool :=
  let '(py, vy, g) := s in
  if jump && g then (py, JUMP_FORCE, false) else s.

Definition vphysics (s : float * float * bool) : float * float * bool :=
  let '(py, vy, g) := s in
  if Num.gt (py + (vy + GRAVITY)) CANVAS_HEIGHT
  then (CANVAS_HEIGHT, 0, true)
  else (py + (vy + GRAVITY), vy + GRAVITY, g).

Definition vstep (jump : bool) (s : float * float * bool)
  : float * float * bool :=
  vphysics (vjump jump s).

(** The jump keys, and a tick of the player alone. *)
Definition jump_held (keys : Keys) : bool :=
  keys "ArrowUp"%string || keys "KeyW"%string.

Definition player_tick (keys : Keys) (p : Entity) : Entity :=
  body_physics Player (player_movement keys p).

(** A body that is on the ground stands on the floor line, at rest. *)
Definition grounded_at_rest (e : Entity) : Prop :=
  onGround e = true -> y (pos e) = CANVAS_HEIGHT /\ y (vel e) = 0.


(** The test of the net's top in the ball's net check: the ball's centre is
    within its radius plus 5 of the top of the net. *)
Definition hits_post (b : Entity) : bool :=
  Num.lt
    (Math.sqrt (Math.pow2 (x (pos b) - NET_X)
                + Math.pow2 (y (pos b) - (CANVAS_HEIGHT - NET_HEIGHT))))
    (radius b + 5).

(** The band around the net line that the side of the net keeps clear. *)
Definition in_net_band (b : Entity) : bool :=
  Num.lt (Math.abs (x (pos b) - NET_X)) (radius b + 5).

(** A ball below the top of the net, 10 to the left of the net line. *)
Definition ball_in_the_net : Entity :=
  mkEntity (mkVector 390 350) (mkVector 3 1) BALL_RADIUS "#ffffff" false.

(** All four steering keys released. *)
Definition release_steering (keys : Keys) : Keys :=
  handleKeyUp "ArrowLeft" (handleKeyUp "KeyA"
    (handleKeyUp "ArrowRight" (handleKeyUp "KeyD" keys))).

(** The phases a world is seen in: all but [GAME_OVER]. *)
Definition in_use (g : GameState) : bool :=
  match g with GAME_OVER => false | _ => true end.

(** The score on display is the score of the canvas. *)
Definition in_step (w : App.World) : Prop :=
  App.score (App.state w) = scoreRef (App.refs w).

(** A gateway that always fails, as a [generateCommentary] for the handler
    of a point. *)
Definition failing_gateway : Z -> Z -> string -> Promise CommentaryResponse :=
  generateCommentary unit rejecting_call parse_ok_only (Some tt).

(** A world in play with the ball about to land in the left half. *)
Definition world_before_point : App.World :=
  App.mkWorld
    (App.mkState PLAYING (mkScore 2 3)
       (mkCommentary "Willkommen am Strand! Wer holt sich den Sieg?" excited)
       false)
    left_floor.



(** * Facts about binary64 arithmetic

    The operations of [float] are specified on [spec_float] (the sign, the
    mantissa and the exponent of a value); the facts below are read off that
    specification. *)

Module IEEE.

Lemma SFcompare_refl (s : spec_float) :
  sf_nan s = false -> SFcompare s s = Some Eq.
Proof.
  destruct s as [b|b| |b m e]; simpl; try discriminate; intros _.
  - reflexivity.
  - destruct b; reflexivity.
  - rewrite Z.compare_refl.
    replace (Pos.compare_cont Eq m m) with Eq
      by (symmetry; apply Pos.compare_cont_refl).
    destruct b; reflexivity.
Qed.

Lemma is_nan_spec (f : float) : is_nan f = sf_nan (Prim2SF f).
Proof.
  unfold is_nan. rewrite eqb_spec. unfold SFeqb.
  destruct (sf_nan (Prim2SF f)) eqn:E.
  - destruct (Prim2SF f); try discriminate. reflexivity.
  - rewrite SFcompare_refl by assumption. reflexivity.
Qed.

Lemma is_finite_spec (f : float) : is_finite f = sf_finite (Prim2SF f).
Proof.
  unfold is_finite, is_infinity. rewrite is_nan_spec, eqb_spec, abs_spec.
  change (Prim2SF infinity) with (S754_infinity false).
  destruct (Prim2SF f) as [b|b| |b m e]; reflexivity.
Qed.

(** *** Order *)

Lemma SFcompare_antisym (a b : spec_float) :
  SFcompare b a = option_map CompOpp (SFcompare a b).
Proof.
  destruct a as [sa|sa| |sa ma ea], b as [sb|sb| |sb mb eb]; simpl;
    try reflexivity;
    try (destruct sa; reflexivity); try (destruct sb; reflexivity);
    try (destruct sa, sb; reflexivity).
  rewrite (Z.compare_antisym ea eb).
  assert (H : Pos.compare_cont Eq mb ma = CompOpp (Pos.compare_cont Eq ma mb))
    by (rewrite Pos.compare_cont_antisym; reflexivity).
  rewrite H.
  destruct sa, sb; simpl; try reflexivity;
    destruct (ea ?= eb)%Z; simpl; try reflexivity;
    destruct (Pos.compare_cont Eq ma mb); reflexivity.
Qed.

(** Among numbers, [a < b] failing means [b <= a]. *)
Lemma ltb_false_leb (a b : float) :
  is_nan a = false -> is_nan b = false ->
  (a <? b) = false -> (b <=? a) = true.
Proof.
  rewrite !is_nan_spec, ltb_spec, leb_spec. unfold SFltb, SFleb.
  rewrite (SFcompare_antisym (Prim2SF a) (Prim2SF b)).
  intros Ha Hb.
  destruct (Prim2SF a) as [sa|sa| |sa ma ea]; try discriminate;
  destruct (Prim2SF b) as [sb|sb| |sb mb eb]; try discriminate;
    destruct (SFcompare _ _) as [[]|] eqn:E; simpl; try congruence;
    simpl in E; try discriminate; destruct sa; try discriminate;
    destruct sb; discriminate.
Qed.

Lemma ltb_leb (a b : float) : (a <? b) = true -> (a <=? b) = true.
Proof.
  rewrite ltb_spec, leb_spec. unfold SFltb, SFleb.
  destruct (SFcompare _ _) as [[]|]; congruence.
Qed.

Lemma leb_not_nan (a b : float) :
  (a <=? b) = true -> is_nan a = false /\ is_nan b = false.
Proof.
  rewrite !is_nan_spec, leb_spec. unfold SFleb.
  destruct (Prim2SF a), (Prim2SF b); simpl; auto; discriminate.
Qed.

(** *** Rounding never makes a NaN out of a non-negative mantissa *)

Lemma shr_1_nonneg (mrs : shr_record) :
  (0 <= shr_m mrs)%Z -> (0 <= shr_m (shr_1 mrs))%Z.
Proof.
  destruct mrs as [m r s]; simpl.
  destruct m as [|p|p]; simpl; try lia; destruct p; simpl; lia.
Qed.

Lemma iter_shr_1_nonneg (p : positive) : forall mrs,
  (0 <= shr_m mrs)%Z -> (0 <= shr_m (iter_pos shr_1 p mrs))%Z.
Proof.
  induction p as [p IH|p IH|]; intros mrs H; simpl.
  - apply IH, IH, shr_1_nonneg, H.
  - apply IH, IH, H.
  - apply shr_1_nonneg, H.
Qed.

Lemma shr_nonneg (mrs : shr_record) (e n : Z) :
  (0 <= shr_m mrs)%Z -> (0 <= shr_m (fst (shr mrs e n)))%Z.
Proof.
  intros H. destruct n; simpl; auto using iter_shr_1_nonneg.
Qed.

Lemma shr_fexp_nonneg (m e : Z) (l : location) :
  (0 <= m)%Z -> (0 <= shr_m (fst (shr_fexp prec emax m e l)))%Z.
Proof.
  intros H. unfold shr_fexp. apply shr_nonneg.
  destruct l as [|[]]; exact H.
Qed.

Lemma round_nearest_even_nonneg (m : Z) (l : location) :
  (0 <= m)%Z -> (0 <= round_nearest_even m l)%Z.
Proof.
  intros H. destruct l as [|[]]; simpl; try lia.
  destruct (Z.even m); lia.
Qed.

Lemma binary_round_aux_rounded (sx : bool) (mx ex : Z) (lx : location) :
  (0 <= mx)%Z -> rounded sx (binary_round_aux prec emax sx mx ex lx).
Proof.
  intros H. unfold binary_round_aux.
  pose proof (shr_fexp_nonneg mx ex lx H) as H1.
  destruct (shr_fexp prec emax mx ex lx) as [mrs' e'] eqn:E1. simpl in H1.
  pose proof (shr_fexp_nonneg _ e' loc_Exact
                (round_nearest_even_nonneg _ (loc_of_shr_record mrs') H1)) as H2.
  destruct (shr_fexp prec emax _ e' loc_Exact) as [mrs'' e''] eqn:E2.
  simpl in H2.
  destruct (shr_m mrs'') as [|m|m]; try lia.
  - split; reflexivity.
  - destruct (e'' <=? emax - prec)%Z; split; reflexivity.
Qed.

Lemma binary_round_rounded (sx : bool) (mx : positive) (ex : Z) :
  rounded sx (binary_round prec emax sx mx ex).
Proof.
  unfold binary_round.
  destruct (shl_align mx ex _) as [mz ez].
  apply binary_round_aux_rounded. lia.
Qed.

Lemma binary_normalize_not_nan (m e : Z) (szero : bool) :
  sf_nan (binary_normalize prec emax m e szero) = false.
Proof.
  destruct m; simpl; try reflexivity; apply binary_round_rounded.
Qed.

(** *** Sums, products and square roots that are numbers *)

(** A finite value added to a number is a number. *)
Lemma SFadd_not_nan (a b : spec_float) :
  sf_nan a = false -> sf_finite b = true -> sf_nan (SF64add a b) = false.
Proof.
  unfold SF64add.
  destruct a as [sa|sa| |sa ma ea], b as [sb|sb| |sb mb eb];
    simpl; try discriminate; intros _ _; try reflexivity.
  - destruct sa, sb; reflexivity.
  - apply binary_normalize_not_nan.
Qed.

Lemma SFadd_not_nan_l (a b : spec_float) :
  sf_finite a = true -> sf_nan b = false -> sf_nan (SF64add a b) = false.
Proof.
  unfold SF64add.
  destruct a as [sa|sa| |sa ma ea], b as [sb|sb| |sb mb eb];
    simpl; try discriminate; intros _ _; try reflexivity.
  - destruct sa, sb; reflexivity.
  - apply binary_normalize_not_nan.
Qed.

(** A number multiplied by a finite value other than zero is a number. *)
Lemma SFmul_not_nan (a : spec_float) (sb : bool) (mb : positive) (eb : Z) :
  sf_nan a = false -> sf_nan (SF64mul a (S754_finite sb mb eb)) = false.
Proof.
  unfold SF64mul.
  destruct a as [sa|sa| |sa ma ea]; simpl; try discriminate; intros _;
    try reflexivity.
  apply binary_round_aux_rounded. lia.
Qed.

(** The square of a number is a number that is not negative. *)
Lemma SFmul_square (a : spec_float) :
  sf_nan a = false -> rounded false (SF64mul a a).
Proof.
  unfold SF64mul.
  destruct a as [sa|sa| |sa ma ea]; simpl; try discriminate; intros _.
  - split; [reflexivity | destruct sa; reflexivity].
  - split; [reflexivity | destruct sa; reflexivity].
  - replace (xorb sa sa) with false by (destruct sa; reflexivity).
    apply binary_round_aux_rounded. lia.
Qed.

Lemma SFadd_nonneg (a b : spec_float) :
  rounded false a -> rounded false b -> rounded false (SF64add a b).
Proof.
  unfold SF64add, rounded.
  destruct a as [sa|sa| |sa ma ea], b as [sb|sb| |sb mb eb];
    simpl; intros [Ha Sa] [Hb Sb]; try discriminate; subst;
    try (split; reflexivity).
  unfold cond_Zopp.
  destruct (Z.add _ _) as [|p|p] eqn:E; simpl; try lia.
  exact (binary_round_rounded false p _).
Qed.

Lemma SFsqrt_nonneg (a : spec_float) :
  rounded false a -> sf_nan (SF64sqrt a) = false.
Proof.
  unfold SF64sqrt, rounded.
  destruct a as [sa|sa| |sa ma ea]; simpl; intros [Ha Sa];
    try discriminate; subst; try reflexivity.
  unfold SFsqrt_core_binary.
  set (m' := match _ with Z0 => _ | Zpos _ => _ | Zneg _ => _ end).
  assert (Hm : (0 <= m')%Z).
  { subst m'. destruct (_ - _)%Z; try lia. apply Z.shiftl_nonneg. lia. }
  pose proof (Z.sqrtrem_spec m' Hm) as Hs.
  destruct (Z.sqrtrem m') as [q r].
  apply binary_round_aux_rounded. lia.
Qed.

(** *** The same facts on [float] *)

Lemma add_not_nan (a b : float) :
  is_nan a = false -> is_finite b = true -> is_nan (a + b) = false.
Proof.
  rewrite !is_nan_spec, is_finite_spec, add_spec. apply SFadd_not_nan.
Qed.

Lemma add_not_nan_l (a b : float) :
  is_finite a = true -> is_nan b = false -> is_nan (a + b) = false.
Proof.
  rewrite !is_nan_spec, is_finite_spec, add_spec. apply SFadd_not_nan_l.
Qed.

Lemma mul_not_nan (a b : float) :
  is_finite b = true -> is_zero b = false ->
  is_nan a = false -> is_nan (a * b) = false.
Proof.
  unfold is_zero. rewrite is_finite_spec, !is_nan_spec, eqb_spec, mul_spec.
  change (Prim2SF zero) with (S754_zero false).
  destruct (Prim2SF b) as [sb|sb| |sb mb eb]; try discriminate.
  intros _ _. apply SFmul_not_nan.
Qed.

(** The length of a vector of numbers is a number. *)
Lemma length_not_nan (a b : float) :
  is_nan a = false -> is_nan b = false ->
  is_nan (PrimFloat.sqrt (a * a + b * b)) = false.
Proof.
  rewrite !is_nan_spec, sqrt_spec, add_spec, !mul_spec. intros Ha Hb.
  apply SFsqrt_nonneg, SFadd_nonneg; apply SFmul_square; assumption.
Qed.

(** A finite value minus itself is [+0]. *)
Lemma sub_diag (a : float) : is_finite a = true -> a - a = 0.
Proof.
  rewrite is_finite_spec. intros H. apply Prim2SF_inj. rewrite sub_spec.
  change (Prim2SF 0) with (S754_zero false). unfold SF64sub.
  destruct (Prim2SF a) as [sa|sa| |sa ma ea]; simpl in *; try discriminate.
  - destruct sa; reflexivity.
  - rewrite Z.sub_diag. reflexivity.
Qed.

(** NaN is absorbing. *)
Lemma mul_nan_l (a : float) : nan * a = nan.
Proof. apply Prim2SF_inj. rewrite mul_spec. reflexivity. Qed.

Lemma add_nan_l (a : float) : nan + a = nan.
Proof. apply Prim2SF_inj. rewrite add_spec. reflexivity. Qed.

Lemma sub_nan_l (a : float) : nan - a = nan.
Proof. apply Prim2SF_inj. rewrite sub_spec. reflexivity. Qed.

Lemma sub_nan_r (a : float) : a - nan = nan.
Proof.
  apply Prim2SF_inj. rewrite sub_spec.
  change (Prim2SF nan) with S754_nan. destruct (Prim2SF a); reflexivity.
Qed.

(** [Math.max] of a number and of 14 is at least 14. *)
Lemma max_14_ge (s : float) : is_nan s = false -> (14 <=? Math.max 14 s) = true.
Proof.
  intros Hs. unfold Math.max. rewrite Hs.
  change (is_nan 14) with false. simpl orb. cbv iota.
  destruct (14 <? s) eqn:E1.
  - apply ltb_leb, E1.
  - destruct (s <? 14); reflexivity.
Qed.

(** *** NaN compares with nothing, and the order is transitive *)

Lemma add_nan_r (a : float) : a + nan = nan.
Proof.
  apply Prim2SF_inj. rewrite add_spec.
  change (Prim2SF nan) with S754_nan. destruct (Prim2SF a); reflexivity.
Qed.

Lemma ltb_nan_l (a : float) : (nan <? a) = false.
Proof. rewrite ltb_spec. reflexivity. Qed.

Lemma ltb_nan_r (a : float) : (a <? nan) = false.
Proof.
  rewrite ltb_spec. change (Prim2SF nan) with S754_nan.
  destruct (Prim2SF a); reflexivity.
Qed.

Lemma leb_nan_r (a : float) : (a <=? nan) = false.
Proof.
  rewrite leb_spec. change (Prim2SF nan) with S754_nan.
  destruct (Prim2SF a); reflexivity.
Qed.


(** [a <= b] and [b < c] give [a < c]. *)
Lemma SFleb_ltb_trans (a b c : spec_float) :
  SFleb a b = true -> SFltb b c = true -> SFltb a c = true.
Proof.
  unfold SFleb, SFltb.
  destruct a as [sa|sa| |sa ma ea], b as [sb|sb| |sb mb eb],
           c as [sc|sc| |sc mc ec]; simpl;
    try discriminate; try reflexivity;
    try (destruct sa; simpl; try discriminate; try reflexivity);
    try (destruct sb; simpl; try discriminate; try reflexivity);
    try (destruct sc; simpl; try discriminate; try reflexivity).
  all: change (Pos.compare_cont Eq) with Pos.compare.
  all: destruct (Z.compare_spec ea eb); destruct (Z.compare_spec eb ec);
       destruct (Z.compare_spec ea ec); simpl; try discriminate;
       try reflexivity; try lia.
  all: destruct (Pos.compare_spec ma mb); destruct (Pos.compare_spec mb mc);
       destruct (Pos.compare_spec ma mc); simpl; try discriminate;
       try reflexivity; try lia.
Qed.

Lemma leb_ltb_trans (a b c : float) :
  (a <=? b) = true -> (b <? c) = true -> (a <? c) = true.
Proof. rewrite leb_spec, !ltb_spec. apply SFleb_ltb_trans. Qed.

Lemma SFltb_leb_trans (a b c : spec_float) :
  SFltb a b = true -> SFleb b c = true -> SFltb a c = true.
Proof.
  unfold SFleb, SFltb.
  destruct a as [sa|sa| |sa ma ea], b as [sb|sb| |sb mb eb],
           c as [sc|sc| |sc mc ec]; simpl;
    try discriminate; try reflexivity;
    try (destruct sa; simpl; try discriminate; try reflexivity);
    try (destruct sb; simpl; try discriminate; try reflexivity);
    try (destruct sc; simpl; try discriminate; try reflexivity).
  all: change (Pos.compare_cont Eq) with Pos.compare.
  all: destruct (Z.compare_spec ea eb); destruct (Z.compare_spec eb ec);
       destruct (Z.compare_spec ea ec); simpl; try discriminate;
       try reflexivity; try lia.
  all: destruct (Pos.compare_spec ma mb); destruct (Pos.compare_spec mb mc);
       destruct (Pos.compare_spec ma mc); simpl; try discriminate;
       try reflexivity; try lia.
Qed.

Lemma ltb_leb_trans (a b c : float) :
  (a <? b) = true -> (b <=? c) = true -> (a <? c) = true.
Proof. rewrite leb_spec, !ltb_spec. apply SFltb_leb_trans. Qed.

Lemma ltb_irrefl (a : float) : (a <? a) = false.
Proof.
  rewrite ltb_spec. unfold SFltb.
  destruct (sf_nan (Prim2SF a)) eqn:E.
  - destruct (Prim2SF a); try discriminate. reflexivity.
  - rewrite SFcompare_refl by assumption. reflexivity.
Qed.

End IEEE.

(** * The tick *)

(** ** Stages keep the radius, and the scoring stage is a reset or nothing *)

Lemma radius_checkCircleCollision (c1 c2 : Entity) :
  radius (checkCircleCollision c1 c2) = radius c2.
Proof.
  unfold checkCircleCollision. destruct (Num.lt _ _); reflexivity.
Qed.

Lemma radius_integrate_ball (b : Entity) : radius (integrate_ball b) = radius b.
Proof. reflexivity. Qed.

Lemma radius_wall_bounce (b : Entity) : radius (wall_bounce b) = radius b.
Proof.
  unfold wall_bounce.
  destruct (Num.lt (x (pos b)) (radius b)); destruct (Num.gt _ _); reflexivity.
Qed.

Lemma radius_ceiling_bounce (b : Entity) : radius (ceiling_bounce b) = radius b.
Proof. unfold ceiling_bounce. destruct (Num.lt _ _); reflexivity. Qed.

Lemma radius_net_ball (b : Entity) : radius (net_ball b) = radius b.
Proof.
  unfold net_ball.
  destruct (Num.lt _ _); [reflexivity|].
  destruct (Num.gt _ _); [|reflexivity].
  destruct (Num.lt _ _); [|reflexivity].
  destruct (Num.lt _ _); reflexivity.
Qed.

Lemma radius_ball_resolve (keys : Keys) (r : Refs) :
  radius (ballRef (resolve keys r)) = radius (ballRef r).
Proof.
  unfold resolve. simpl.
  rewrite !radius_checkCircleCollision, radius_net_ball,
    radius_ceiling_bounce, radius_wall_bounce.
  reflexivity.
Qed.

(** ** Outside of play *)

(** C10: in every phase other than [PLAYING] a call of [update] returns at
    once: the three entities and the two counters are what they were, and no
    callback is called. *)
Theorem update_not_playing (g : GameState) (keys : Keys) (r : Refs) :
  g <> PLAYING -> update g keys r = (r, []).
Proof.
  intros H. destruct g; try reflexivity. contradiction.
Qed.

Lemma update_not_playing_witness :
  update MENU (fun _ => true) initialRefs = (initialRefs, [])
  /\ update POINT_SCORED (fun _ => true) initialRefs = (initialRefs, [])
  /\ update GAME_OVER (fun _ => true) initialRefs = (initialRefs, []).
Proof.
  split; [|split].
  - apply (update_not_playing MENU). discriminate.
  - apply (update_not_playing POINT_SCORED). discriminate.
  - apply (update_not_playing GAME_OVER). discriminate.
Defined.

(** ** The integrator *)

(** C8: a body gets the gravity 0.5 added to its vertical velocity and then
    its velocity added to its position, the horizontal velocity untouched;
    the ball gets 0.8 times the gravity added, both components of its
    velocity multiplied by 0.995, and then its velocity added to its
    position.  The tick applies the first to the player and to the opponent
    and the second to the ball, before any boundary is looked at. *)
Theorem integrator_step (keys : Keys) (r : Refs) (p b : Entity) :
  integrate_body p
  = mkEntity
      (mkVector (x (pos p) + x (vel p)) (y (pos p) + (y (vel p) + 0.5)))
      (mkVector (x (vel p)) (y (vel p) + 0.5))
      (radius p) (color p) (onGround p)
  /\ integrate_ball b
     = mkEntity
         (mkVector (x (pos b) + x (vel b) * 0.995)
                   (y (pos b) + (y (vel b) + 0.5 * 0.8) * 0.995))
         (mkVector (x (vel b) * 0.995) ((y (vel b) + 0.5 * 0.8) * 0.995))
         (radius b) (color b) (onGround b)
  /\ playerRef (resolve keys r)
     = net_collision Player
         (wall_collision
            (floor_collision
               (integrate_body (player_movement keys (playerRef r)))))
  /\ cpuRef (resolve keys r)
     = net_collision Cpu
         (wall_collision
            (floor_collision
               (integrate_body (cpu_ai (cpuRef r) (ballRef r)))))
  /\ ballRef (resolve keys r)
     = checkCircleCollision (cpuRef (resolve keys r))
         (checkCircleCollision (playerRef (resolve keys r))
            (net_ball (ceiling_bounce (wall_bounce (integrate_ball (ballRef r)))))).
Proof.
  split; [destruct p; reflexivity|].
  split; [destruct b; reflexivity|].
  unfold resolve, body_physics. cbn [playerRef cpuRef ballRef].
  split; [reflexivity|]. split; reflexivity.
Qed.

(** In free flight a whole tick is the integrator and nothing else. *)
Lemma integrator_in_free_flight :
  update PLAYING no_keys mid_air
  = (mkRefs
       (mkEntity (mkVector 200 (300 + (-3 + 0.5))) (mkVector 0 (-3 + 0.5))
          PLAYER_RADIUS "#ef4444" false)
       (mkEntity (mkVector 650 (250 + (2 + 0.5))) (mkVector 0 (2 + 0.5))
          PLAYER_RADIUS "#3b82f6" false)
       (mkEntity
          (mkVector (100 + 2 * 0.995) (100 + (1 + 0.5 * 0.8) * 0.995))
          (mkVector (2 * 0.995) ((1 + 0.5 * 0.8) * 0.995))
          BALL_RADIUS "#ffffff" false)
       (mkScore 0 0),
     []).
Proof.
  vm_compute. reflexivity.
Qed.

(** ** The opponent *)

(** C9: the opponent's step reads the ball's position, the opponent's
    position and its [onGround] flag, and nothing else: two calls on
    snapshots that agree on these give the same horizontal velocity and the
    same jump decision (with a jump, vertical velocity [JUMP_FORCE] and
    [onGround] false; without, both left as they were), whatever the
    velocities, the radii and the colours are. *)
Theorem cpu_ai_snapshot (c1 c2 b1 b2 : Entity) :
  pos b1 = pos b2 -> pos c1 = pos c2 -> onGround c1 = onGround c2 ->
  x (vel (cpu_ai c1 b1)) = x (vel (cpu_ai c2 b2))
  /\ cpu_jumps c1 b1 = cpu_jumps c2 b2
  /\ onGround (cpu_ai c1 b1) = onGround (cpu_ai c2 b2)
  /\ (cpu_jumps c1 b1 = true ->
      y (vel (cpu_ai c1 b1)) = JUMP_FORCE /\ y (vel (cpu_ai c2 b2)) = JUMP_FORCE)
  /\ (cpu_jumps c1 b1 = false ->
      y (vel (cpu_ai c1 b1)) = y (vel c1) /\ y (vel (cpu_ai c2 b2)) = y (vel c2)).
Proof.
  intros Hb Hc Hg.
  assert (Hj : cpu_jumps c1 b1 = cpu_jumps c2 b2)
    by (unfold cpu_jumps; rewrite Hb, Hc, Hg; reflexivity).
  unfold cpu_ai. rewrite <- Hj, Hb, Hc.
  destruct (cpu_jumps c1 b1); simpl; rewrite ?Hg;
    repeat split; auto; discriminate.
Qed.

Lemma cpu_ai_snapshot_witness :
  x (vel (cpu_ai (fst snapshot_a) (snd snapshot_a)))
  = x (vel (cpu_ai (fst snapshot_b) (snd snapshot_b)))
  /\ cpu_jumps (fst snapshot_a) (snd snapshot_a) = true
  /\ cpu_jumps (fst snapshot_b) (snd snapshot_b) = true.
Proof.
  destruct (cpu_ai_snapshot (fst snapshot_a) (fst snapshot_b)
              (snd snapshot_a) (snd snapshot_b)
              eq_refl eq_refl eq_refl) as (Hv & Hj & _).
  split; [exact Hv|]. split; [reflexivity|]. rewrite <- Hj. reflexivity.
Defined.

(** Within a tick the opponent's horizontal velocity is the controller's
    answer to the positions at the start of the tick: the keys, the player,
    the score and the velocities play no part, and the physics of the body
    leaves it as it is. *)
Lemma resolve_cpu_velX (keys : Keys) (r : Refs) :
  x (vel (cpuRef (resolve keys r)))
  = cpu_velX (x (pos (cpuRef r))) (x (pos (ballRef r))).
Proof.
  unfold resolve, body_physics. cbn [cpuRef].
  unfold net_collision, wall_collision, floor_collision.
  repeat match goal with
         | |- context [if ?c then _ else _] =>
             lazymatch c with
             | cpu_jumps _ _ => fail
             | _ => destruct c
             end
         end;
    unfold cpu_ai; destruct (cpu_jumps _ _); reflexivity.
Qed.

(** ** Scoring and the serve *)

(** The ball on the ground in the left half: the opponent scores and
    [resetPositions('player')] runs. *)
Lemma scoring_left (r : Refs) :
  Num.ge (y (pos (ballRef r))) (CANVAS_HEIGHT - radius (ballRef r)) = true ->
  Num.lt (x (pos (ballRef r))) NET_X = true ->
  scoring r
  = (resetPositions Player
       (with_score r (mkScore (player (scoreRef r)) (cpu (scoreRef r) + 1)%Z)),
     [setScore (mkScore (player (scoreRef r)) (cpu (scoreRef r) + 1)%Z);
      onPointEnd Cpu; setGameState POINT_SCORED]).
Proof.
  intros Hy Hx. unfold scoring. rewrite Hy, Hx. reflexivity.
Qed.

(** The ball on the ground in the right half: the player scores and
    [resetPositions('cpu')] runs. *)
Lemma scoring_right (r : Refs) :
  Num.ge (y (pos (ballRef r))) (CANVAS_HEIGHT - radius (ballRef r)) = true ->
  Num.lt (x (pos (ballRef r))) NET_X = false ->
  scoring r
  = (resetPositions Cpu
       (with_score r (mkScore (player (scoreRef r) + 1)%Z (cpu (scoreRef r)))),
     [setScore (mkScore (player (scoreRef r) + 1)%Z (cpu (scoreRef r)));
      onPointEnd Player; setGameState POINT_SCORED]).
Proof.
  intros Hy Hx. unfold scoring. rewrite Hy, Hx. reflexivity.
Qed.

(** C1: a tick of play whose collision resolution leaves the ball (of radius
    12) at (300, 399), with the floor at 400 and the net at 400, finds it on
    the ground in the left half: the opponent's counter grows by exactly 1
    and the player's stays, the reset is the one for the player as server,
    the ball is put at (200, 250) with velocity (0, -9), and the callbacks
    are told the new score, the winner and the phase [POINT_SCORED]. *)
Theorem floor_contact_left (keys : Keys) (r : Refs) :
  radius (ballRef r) = BALL_RADIUS ->
  pos (ballRef (resolve keys r)) = mkVector 300 399 ->
  let sc := mkScore (player (scoreRef r)) (cpu (scoreRef r) + 1)%Z in
  let r' := fst (update PLAYING keys r) in
  CANVAS_HEIGHT = 400 /\ NET_X = 400
  /\ update PLAYING keys r
     = (resetPositions Player (with_score (resolve keys r) sc),
        [setScore sc; onPointEnd Cpu; setGameState POINT_SCORED])
  /\ scoreRef r' = sc
  /\ pos (ballRef r') = mkVector 200 250
  /\ vel (ballRef r') = mkVector 0 (-9)
  /\ pos (playerRef r') = mkVector 200 400
  /\ pos (cpuRef r') = mkVector 600 400.
Proof.
  intros Hr Hp sc r'.
  assert (E : update PLAYING keys r
              = (resetPositions Player (with_score (resolve keys r) sc),
                 [setScore sc; onPointEnd Cpu; setGameState POINT_SCORED])).
  { unfold update. rewrite scoring_left.
    - reflexivity.
    - rewrite radius_ball_resolve, Hr, Hp. reflexivity.
    - rewrite Hp. reflexivity. }
  subst r'. rewrite E. repeat split; reflexivity.
Qed.

Lemma floor_contact_left_witness :
  pos (ballRef (resolve no_keys left_floor)) = mkVector 300 399
  /\ scoreRef (fst (update PLAYING no_keys left_floor)) = mkScore 2 4
  /\ pos (ballRef (fst (update PLAYING no_keys left_floor))) = mkVector 200 250
  /\ vel (ballRef (fst (update PLAYING no_keys left_floor))) = mkVector 0 (-9).
Proof.
  assert (Hp : pos (ballRef (resolve no_keys left_floor)) = mkVector 300 399)
    by (vm_compute; reflexivity).
  destruct (floor_contact_left no_keys left_floor eq_refl Hp)
    as (_ & _ & _ & Hs & Hb & Hv & _).
  repeat split; assumption.
Defined.

(** C3, on the code: the side that wins the point is not the one that
    serves.  When the ball lands in the left half the opponent is the winner
    reported to [onPointEnd], and the reset is the one for the player as
    server, the toss being in the left half; when it lands in the right half
    the player is the winner and the toss is in the right half. *)
Theorem serve_goes_to_the_loser :
  snd (update PLAYING no_keys left_floor)
  = [setScore (mkScore 2 4); onPointEnd Cpu; setGameState POINT_SCORED]
  /\ fst (update PLAYING no_keys left_floor)
     = resetPositions Player (with_score (resolve no_keys left_floor) (mkScore 2 4))
  /\ pos (ballRef (fst (update PLAYING no_keys left_floor))) = mkVector 200 250
  /\ half (x (pos (ballRef (fst (update PLAYING no_keys left_floor))))) = Player
  /\ snd (update PLAYING no_keys right_floor)
     = [setScore (mkScore 3 3); onPointEnd Player; setGameState POINT_SCORED]
  /\ fst (update PLAYING no_keys right_floor)
     = resetPositions Cpu (with_score (resolve no_keys right_floor) (mkScore 3 3))
  /\ pos (ballRef (fst (update PLAYING no_keys right_floor))) = mkVector 600 250
  /\ half (x (pos (ballRef (fst (update PLAYING no_keys right_floor))))) = Cpu.
Proof.
  repeat split; vm_compute; reflexivity.
Qed.

(** ** The hit *)

(** C2 fails on the code as it is worded: with the unit normal from the
    body's centre to the ball's equal to (-1, 0) the ball is on the body's
    left, 47 away (an overlap of 5); the code's [(nx, ny)] is then (1, 0) and
    the ball, at rest and hit by a body moving at (6, 0), leaves with
    horizontal velocity -14 + 3 = -11, not 17. *)
Lemma hit_on_the_left_is_minus_11 :
  collides runner ball_on_the_left = true
  /\ (radius runner + radius ball_on_the_left) - dist runner ball_on_the_left = 5
  /\ x (outgoing_normal runner ball_on_the_left) = -1
  /\ (y (outgoing_normal runner ball_on_the_left) =? 0) = true
  /\ pop_force ball_on_the_left = 14
  /\ x (vel (checkCircleCollision runner ball_on_the_left)) = -11
  /\ (x (vel (checkCircleCollision runner ball_on_the_left)) =? 17) = false.
Proof.
  repeat split; vm_compute; reflexivity.
Qed.

(** C2, amended: a body of radius 40 moving at (6, 0) meets a ball of radius
    12 at rest that it overlaps by 5, the normal of the code, which points
    from the ball's centre to the body's, being (-1, 0): the ball is 47 to
    the body's right.  The force is the minimum 14, the ball's own speed
    being 0, and the ball leaves with horizontal velocity
    14 * 1 + 6 * 0.5 = 17. *)
Theorem hit_at_minimum_force (c1 c2 : Entity) :
  radius c1 = PLAYER_RADIUS -> radius c2 = BALL_RADIUS ->
  vel c1 = mkVector 6 0 -> vel c2 = mkVector 0 0 ->
  x (pos c1) - x (pos c2) = -47 ->
  y (pos c1) - y (pos c2) = 0 ->
  collides c1 c2 = true
  /\ (radius c1 + radius c2) - dist c1 c2 = 5
  /\ (x (pos c1) - x (pos c2)) / dist c1 c2 = -1
  /\ (y (pos c1) - y (pos c2)) / dist c1 c2 = 0
  /\ pop_force c2 = 14
  /\ x (vel (checkCircleCollision c1 c2)) = 17
  /\ 14 * 1 + 6 * 0.5 = 17.
Proof.
  intros R1 R2 V1 V2 Dx Dy.
  unfold collides, dist, checkCircleCollision, pop_force.
  rewrite R1, R2, V1, V2, Dx, Dy.
  repeat split; vm_compute; reflexivity.
Qed.

Lemma hit_at_minimum_force_witness :
  x (vel (checkCircleCollision runner resting_ball)) = 17.
Proof.
  apply (hit_at_minimum_force runner resting_ball);
    vm_compute; reflexivity.
Defined.

(** C4 fails on the code: the body at (200, 300) moves left at 6 and the
    ball at rest is 47 to its right.  The centres are 47 apart, less than
    the radii's 52; the outgoing normal is (1, 0), the ball leaves with
    velocity (11, -4) and its component along the normal is 11, below 14. *)
Lemma receding_body_hit_below_14 :
  collides receding_body resting_ball = true
  /\ dist receding_body resting_ball = 47
  /\ x (outgoing_normal receding_body resting_ball) = 1
  /\ (y (outgoing_normal receding_body resting_ball) =? 0) = true
  /\ vel (checkCircleCollision receding_body resting_ball) = mkVector 11 (-4)
  /\ normal_component receding_body resting_ball = 11
  /\ (14 <=? normal_component receding_body resting_ball) = false.
Proof.
  repeat split; vm_compute; reflexivity.
Qed.

(** The force of the hit is at least 14 as soon as the ball's velocity is
    made of numbers. *)
Lemma pop_force_ge_14 (c2 : Entity) :
  is_nan (x (vel c2)) = false -> is_nan (y (vel c2)) = false ->
  (14 <=? pop_force c2) = true.
Proof.
  intros Hx Hy. unfold pop_force. apply IEEE.max_14_ge.
  apply IEEE.mul_not_nan; try reflexivity.
  apply IEEE.length_not_nan; assumption.
Qed.

(** C4, amended: in every collision of a body with a ball whose velocity is
    made of numbers, the ball's new velocity is the outgoing normal times
    the force, plus half of the body's velocity, plus the upward kick of 4,
    and the force is at least 14 whatever the body's velocity is. *)
Theorem hit_force_at_least_14 (c1 c2 : Entity) :
  collides c1 c2 = true ->
  is_nan (x (vel c2)) = false -> is_nan (y (vel c2)) = false ->
  let n := outgoing_normal c1 c2 in
  let v := vel (checkCircleCollision c1 c2) in
  x v = x n * pop_force c2 + x (vel c1) * 0.5
  /\ y v = y n * pop_force c2 + y (vel c1) * 0.5 - 4
  /\ (14 <=? pop_force c2) = true.
Proof.
  intros Hc Hx Hy n v. subst n v.
  unfold collides, dist in Hc.
  unfold checkCircleCollision, outgoing_normal, dist. rewrite Hc. simpl.
  repeat split. apply pop_force_ge_14; assumption.
Qed.

Lemma hit_force_at_least_14_witness :
  vel (checkCircleCollision receding_body resting_ball)
  = mkVector (1 * 14 + -6 * 0.5) (-0 * 14 + 0 * 0.5 - 4)
  /\ (14 <=? pop_force resting_ball) = true.
Proof.
  destruct (hit_force_at_least_14 receding_body resting_ball
              eq_refl eq_refl eq_refl) as (Hx & Hy & Hf).
  split; [|exact Hf].
  vm_compute. reflexivity.
Defined.

(** ** Bounds *)

(** C5 fails on the code for the ball: the wall check leaves it at x = 12,
    the player (at x = 40, the same height) then pushes it out of the
    overlap by 24 to x = -12, beyond the wall, and the tick ends there
    without a point. *)
Lemma ball_pushed_through_wall :
  update PLAYING no_keys left_corner = (resolve no_keys left_corner, [])
  /\ pos (wall_bounce (integrate_ball (ballRef left_corner))) = mkVector 12 300
  /\ pos (playerRef (resolve no_keys left_corner)) = mkVector 40 300
  /\ pos (ballRef (resolve no_keys left_corner)) = mkVector (-12) 300
  /\ radius (ballRef (resolve no_keys left_corner)) = 12
  /\ in_court (ballRef (fst (update PLAYING no_keys left_corner))) = false.
Proof.
  repeat split; vm_compute; reflexivity.
Qed.

Lemma player_movement_keeps (keys : Keys) (p : Entity) :
  pos (player_movement keys p) = pos p
  /\ radius (player_movement keys p) = radius p
  /\ is_finite (x (vel (player_movement keys p))) = true.
Proof.
  unfold player_movement.
  destruct (keys "ArrowLeft"%string || keys "KeyA"%string);
    [|destruct (keys "ArrowRight"%string || keys "KeyD"%string)];
    destruct (keys "ArrowUp"%string || keys "KeyW"%string); simpl;
    destruct (onGround p); repeat split; reflexivity.
Qed.

Lemma cpu_ai_keeps (c ball : Entity) :
  pos (cpu_ai c ball) = pos c
  /\ radius (cpu_ai c ball) = radius c
  /\ is_finite (x (vel (cpu_ai c ball))) = true.
Proof.
  assert (H : is_finite (cpu_velX (x (pos c)) (x (pos ball))) = true).
  { unfold cpu_velX. destruct (Num.gt _ 5); [destruct (Num.gt _ 0)|]; reflexivity. }
  unfold cpu_ai. destruct (cpu_jumps c ball); repeat split; assumption.
Qed.

Lemma floor_collision_keeps (p : Entity) :
  x (pos (floor_collision p)) = x (pos p)
  /\ radius (floor_collision p) = radius p.
Proof.
  unfold floor_collision. destruct (Num.gt _ _); split; reflexivity.
Qed.

(** The wall check puts a body of radius 40 between 40 and 760. *)
Lemma wall_collision_bounds (p : Entity) :
  radius p = PLAYER_RADIUS -> is_nan (x (pos p)) = false ->
  radius (wall_collision p) = PLAYER_RADIUS
  /\ (40 <=? x (pos (wall_collision p))) = true
  /\ (x (pos (wall_collision p)) <=? 760) = true.
Proof.
  intros Hr Hx. unfold wall_collision, Num.lt, Num.gt.
  destruct (x (pos p) <? radius p) eqn:E1;
    cbn [radius pos x y set_pos_x set_pos]; rewrite !Hr.
  - change (CANVAS_WIDTH - PLAYER_RADIUS <? PLAYER_RADIUS) with false.
    cbn [radius pos x y set_pos_x set_pos].
    repeat split; try reflexivity. exact Hr.
  - rewrite Hr in E1.
    apply IEEE.ltb_false_leb in E1; [|assumption|reflexivity].
    destruct (CANVAS_WIDTH - PLAYER_RADIUS <? x (pos p)) eqn:E2;
      cbn [radius pos x y set_pos_x set_pos].
    + repeat split; try reflexivity. exact Hr.
    + apply IEEE.ltb_false_leb in E2; [|reflexivity|assumption].
      repeat split; assumption.
Qed.

(** The net check then keeps each body in its half. *)
Lemma net_collision_bounds (who : Who) (p : Entity) :
  radius p = PLAYER_RADIUS -> is_nan (x (pos p)) = false ->
  (40 <=? x (pos p)) = true -> (x (pos p) <=? 760) = true ->
  let q := net_collision who p in
  radius q = PLAYER_RADIUS
  /\ in_court q = true
  /\ match who with
     | Player => (x (pos q) <=? NET_X - radius q) = true
     | Cpu => (NET_X + radius q <=? x (pos q)) = true
     end.
Proof.
  intros Hr Hn Hlo Hhi q. subst q. unfold in_court.
  destruct who; unfold net_collision, Num.lt, Num.gt; rewrite Hr.
  - destruct (NET_X - PLAYER_RADIUS <? x (pos p)) eqn:E;
      cbn [radius pos x y set_pos_x set_pos]; rewrite !Hr.
    + repeat split; reflexivity.
    + apply IEEE.ltb_false_leb in E; [|reflexivity|assumption].
      change (CANVAS_WIDTH - PLAYER_RADIUS) with 760.
      change (PLAYER_RADIUS <=? x (pos p)) with (40 <=? x (pos p)).
      rewrite Hlo, Hhi.
      repeat split; assumption.
  - destruct (x (pos p) <? NET_X + PLAYER_RADIUS) eqn:E;
      cbn [radius pos x y set_pos_x set_pos]; rewrite !Hr.
    + repeat split; reflexivity.
    + apply IEEE.ltb_false_leb in E; [|assumption|reflexivity].
      change (CANVAS_WIDTH - PLAYER_RADIUS) with 760.
      change (PLAYER_RADIUS <=? x (pos p)) with (40 <=? x (pos p)).
      rewrite Hlo, Hhi.
      repeat split; assumption.
Qed.

Lemma body_physics_bounds (who : Who) (p : Entity) :
  radius p = PLAYER_RADIUS ->
  is_nan (x (pos p)) = false -> is_finite (x (vel p)) = true ->
  let q := body_physics who p in
  radius q = PLAYER_RADIUS
  /\ in_court q = true
  /\ match who with
     | Player => (x (pos q) <=? NET_X - radius q) = true
     | Cpu => (NET_X + radius q <=? x (pos q)) = true
     end.
Proof.
  intros Hr Hx Hv. unfold body_physics.
  destruct (floor_collision_keeps (integrate_body p)) as [Fx Fr].
  assert (Hn : is_nan (x (pos (floor_collision (integrate_body p)))) = false)
    by (rewrite Fx; simpl; apply IEEE.add_not_nan; assumption).
  assert (Hr' : radius (floor_collision (integrate_body p)) = PLAYER_RADIUS)
    by (rewrite Fr; exact Hr).
  destruct (wall_collision_bounds _ Hr' Hn) as (Wr & Wlo & Whi).
  apply net_collision_bounds; try assumption.
  apply IEEE.leb_not_nan in Wlo. apply Wlo.
Qed.

(** The ball's wall check puts a ball of radius 12 between 12 and 788. *)
Lemma wall_bounce_bounds (b : Entity) :
  radius b = BALL_RADIUS -> is_nan (x (pos b)) = false ->
  in_court (wall_bounce b) = true.
Proof.
  intros Hr Hx. unfold in_court. rewrite radius_wall_bounce, Hr.
  unfold wall_bounce, Num.lt, Num.gt.
  destruct (x (pos b) <? radius b) eqn:E1;
    cbn [radius pos x y set_pos_x set_pos set_vel_x set_vel]; rewrite !Hr.
  - change (CANVAS_WIDTH - BALL_RADIUS <? BALL_RADIUS) with false.
    reflexivity.
  - rewrite Hr in E1.
    apply IEEE.ltb_false_leb in E1; [|assumption|reflexivity].
    destruct (CANVAS_WIDTH - BALL_RADIUS <? x (pos b)) eqn:E2;
      cbn [radius pos x y set_pos_x set_pos set_vel_x set_vel].
    + reflexivity.
    + apply IEEE.ltb_false_leb in E2; [|reflexivity|assumption].
      rewrite E1, E2. reflexivity.
Qed.

Lemma resetPositions_in_bounds (server : Who) (r : Refs) :
  radius (playerRef r) = PLAYER_RADIUS -> radius (cpuRef r) = PLAYER_RADIUS ->
  bodies_in_bounds (resetPositions server r).
Proof.
  intros Hp Hc. unfold bodies_in_bounds, in_court, resetPositions.
  cbn [playerRef cpuRef radius pos x y set_pos set_vel set_onGround].
  rewrite Hp, Hc. repeat split; reflexivity.
Qed.

Lemma scoring_in_bounds (r : Refs) :
  bodies_in_bounds r -> bodies_in_bounds (fst (scoring r)).
Proof.
  intros H. pose proof H as ((Hp & _) & (Hc & _)).
  unfold scoring.
  destruct (Num.ge _ _); [|exact H].
  destruct (Num.lt _ _); apply resetPositions_in_bounds; assumption.
Qed.

Lemma resolve_in_bounds (keys : Keys) (r : Refs) :
  radius (playerRef r) = PLAYER_RADIUS -> radius (cpuRef r) = PLAYER_RADIUS ->
  is_nan (x (pos (playerRef r))) = false ->
  is_nan (x (pos (cpuRef r))) = false ->
  bodies_in_bounds (resolve keys r).
Proof.
  intros Rp Rc Np Nc. unfold bodies_in_bounds, resolve.
  cbn [playerRef cpuRef].
  destruct (player_movement_keeps keys (playerRef r)) as (Pp & Pr & Pv).
  destruct (cpu_ai_keeps (cpuRef r) (ballRef r)) as (Cp & Cr & Cv).
  split.
  - apply (body_physics_bounds Player); [congruence | rewrite Pp | ]; assumption.
  - apply (body_physics_bounds Cpu); [congruence | rewrite Cp | ]; assumption.
Qed.

(** The bounds of the bodies are an invariant of play: they hold of the
    initial cells and every tick keeps them. *)
Lemma bodies_in_bounds_tick (keys : Keys) (r : Refs) :
  bodies_in_bounds r -> bodies_in_bounds (fst (update PLAYING keys r)).
Proof.
  intros ((Rp & Ip & _) & (Rc & Ic & _)).
  apply scoring_in_bounds, resolve_in_bounds; try assumption.
  - unfold in_court in Ip. apply andb_prop in Ip as [Ip _].
    apply IEEE.leb_not_nan in Ip. apply Ip.
  - unfold in_court in Ic. apply andb_prop in Ic as [Ic _].
    apply IEEE.leb_not_nan in Ic. apply Ic.
Qed.

Lemma run_invariant {A : Type} (step : Keys -> A -> A) (P : A -> Prop) :
  (forall keys a, P a -> P (step keys a)) ->
  forall ticks a, P a -> P (run step ticks a).
Proof.
  intros Hstep ticks. induction ticks as [|keys rest IH]; intros a H.
  - exact H.
  - apply IH, Hstep, H.
Qed.

Lemma bodies_in_bounds_play (ticks : list Keys) (r : Refs) :
  bodies_in_bounds r -> bodies_in_bounds (play ticks r).
Proof.
  apply (run_invariant (fun keys r => fst (update PLAYING keys r))
           bodies_in_bounds bodies_in_bounds_tick).
Qed.

Lemma bodies_in_bounds_initially : bodies_in_bounds initialRefs.
Proof.
  repeat split; reflexivity.
Qed.

(** C5, amended: after every tick of play that starts with the bodies'
    radii at 40, the ball's at 12 and numbers for the horizontal
    coordinates, the player is within [radius, width - radius] and not
    beyond [NET_X - radius], and the opponent is within the same interval
    and not before [NET_X + radius], both at the end of collision
    resolution and at the end of the tick; the ball is within
    [radius, width - radius] when it leaves its wall check, the net and body
    collisions that follow being free to move it. *)
Theorem bodies_stay_in_bounds (keys : Keys) (r : Refs) :
  radius (playerRef r) = PLAYER_RADIUS ->
  radius (cpuRef r) = PLAYER_RADIUS ->
  radius (ballRef r) = BALL_RADIUS ->
  is_nan (x (pos (playerRef r))) = false ->
  is_nan (x (pos (cpuRef r))) = false ->
  is_finite (x (pos (ballRef r))) = true ->
  is_nan (x (vel (ballRef r))) = false ->
  let r' := resolve keys r in
  in_court (playerRef r') = true
  /\ (x (pos (playerRef r')) <=? NET_X - radius (playerRef r')) = true
  /\ in_court (cpuRef r') = true
  /\ (NET_X + radius (cpuRef r') <=? x (pos (cpuRef r'))) = true
  /\ in_court (wall_bounce (integrate_ball (ballRef r))) = true
  /\ bodies_in_bounds (fst (update PLAYING keys r)).
Proof.
  intros Rp Rc Rb Np Nc Fb Nv r'.
  pose proof (resolve_in_bounds keys r Rp Rc Np Nc) as H.
  pose proof (scoring_in_bounds _ H) as H'.
  destruct H as ((_ & P1 & P2) & (_ & C1 & C2)).
  split; [exact P1|]. split; [exact P2|]. split; [exact C1|].
  split; [exact C2|]. split; [|exact H'].
  apply wall_bounce_bounds; [exact Rb|].
  cbn [integrate_ball pos x y set_pos_x set_pos_y set_pos set_vel_x set_vel_y set_vel vel].
  apply IEEE.add_not_nan_l; [assumption|].
  apply IEEE.mul_not_nan; try reflexivity. assumption.
Qed.

Lemma bodies_stay_in_bounds_witness :
  in_court (playerRef (resolve no_keys left_corner)) = true
  /\ in_court (cpuRef (resolve no_keys left_corner)) = true
  /\ in_court (wall_bounce (integrate_ball (ballRef left_corner))) = true
  /\ bodies_in_bounds (fst (update PLAYING no_keys left_corner)).
Proof.
  destruct (bodies_stay_in_bounds no_keys left_corner
              eq_refl eq_refl eq_refl eq_refl eq_refl eq_refl eq_refl)
    as (P & _ & C & _ & B & U).
  exact (conj P (conj C (conj B U))).
Defined.

(** ** Coinciding centres *)

(** C6 fails on the code: with the ball's centre on the body's centre the
    distance is 0, the test for a collision passes, the normal is 0 / 0 and
    the ball's position and velocity are NaN, which is not finite. *)
Lemma concentric_hit_not_finite :
  dist receding_body concentric_ball = 0
  /\ collides receding_body concentric_ball = true
  /\ pos (checkCircleCollision receding_body concentric_ball) = mkVector nan nan
  /\ vel (checkCircleCollision receding_body concentric_ball) = mkVector nan nan
  /\ is_finite (x (vel (checkCircleCollision receding_body concentric_ball)))
     = false.
Proof.
  repeat split; vm_compute; reflexivity.
Qed.

(** C6, amended: the routine has no fallback normal.  Whenever the ball's
    centre is the body's centre (finite coordinates, radii of positive sum)
    the distance is 0, the collision branch is taken, the normal is 0 / 0,
    and the ball's new position and velocity are NaN in both components;
    the division raises no fault. *)
Theorem concentric_hit_is_nan (c1 c2 : Entity) :
  pos c1 = pos c2 ->
  is_finite (x (pos c1)) = true -> is_finite (y (pos c1)) = true ->
  Num.lt 0 (radius c1 + radius c2) = true ->
  dist c1 c2 = 0
  /\ collides c1 c2 = true
  /\ (x (pos c1) - x (pos c2)) / dist c1 c2 = nan
  /\ pos (checkCircleCollision c1 c2) = mkVector nan nan
  /\ vel (checkCircleCollision c1 c2) = mkVector nan nan.
Proof.
  intros Hp Fx Fy Hr.
  assert (Hd : dist c1 c2 = 0).
  { unfold dist. rewrite <- Hp, !IEEE.sub_diag by assumption. reflexivity. }
  assert (Hc : collides c1 c2 = true) by (unfold collides; rewrite Hd; exact Hr).
  split; [exact Hd|]. split; [exact Hc|].
  split; [rewrite Hd, <- Hp, IEEE.sub_diag by assumption; reflexivity|].
  unfold collides, dist in Hc.
  unfold checkCircleCollision. rewrite Hc. unfold dist in Hd. rewrite Hd.
  rewrite <- Hp, !IEEE.sub_diag by assumption.
  change (0 / 0) with nan. change (- nan) with nan.
  cbn [pos vel x y set_pos_x set_pos_y set_pos set_vel_x set_vel_y set_vel radius].
  rewrite !IEEE.mul_nan_l, !IEEE.add_nan_l, !IEEE.sub_nan_l, !IEEE.sub_nan_r.
  repeat split.
Qed.

Lemma concentric_hit_is_nan_witness :
  vel (checkCircleCollision receding_body concentric_ball) = mkVector nan nan.
Proof.
  apply (concentric_hit_is_nan receding_body concentric_ball);
    reflexivity.
Defined.

(** * The commentary gateway *)

(** C7 fails on the code in one part: there is not one placeholder text but
    two.  Without a client the text is the one about the API key; with a
    client whose call is rejected it is the "AI Offline" one; the two
    differ. *)
Lemma two_fallback_texts :
  generateCommentary unit rejecting_call parse_ok_only None 1 0 "x"
  = Fulfilled (mkCommentary "AI Commentary unavailable (Check API Key)." neutral)
  /\ generateCommentary unit rejecting_call parse_ok_only (Some tt) 1 0 "x"
     = Fulfilled (mkCommentary "Was für ein Spiel! (AI Offline)" neutral)
  /\ String.eqb "AI Commentary unavailable (Check API Key)."
       "Was für ein Spiel! (AI Offline)" = false.
Proof.
  repeat split.
Qed.

(** Missing credentials leave no client: no API key, an empty one, or a
    constructor that throws. *)
Lemma init_ai_no_client (G : Type) (new_GoogleGenAI : string -> Try G) :
  init_ai G new_GoogleGenAI None = None
  /\ init_ai G new_GoogleGenAI (Some ""%string) = None
  /\ (forall key e, new_GoogleGenAI key = inl e ->
       init_ai G new_GoogleGenAI (Some key) = None).
Proof.
  repeat split. intros key e H. unfold init_ai. rewrite H.
  destruct (String.eqb key ""); reflexivity.
Qed.

(** The promise of [generateCommentary] is never rejected. *)
Lemma generateCommentary_fulfils (G : Type)
    (generateContent : G -> Request -> Try Response)
    (JSON_parse : string -> Try CommentaryResponse)
    (ai : option G) (playerScore cpuScore : Z) (lastEvent : string) :
  exists v,
    generateCommentary G generateContent JSON_parse ai playerScore cpuScore lastEvent
    = Fulfilled v.
Proof.
  destruct ai as [client|]; simpl; [|eexists; reflexivity].
  destruct (attempt _ _ _ _ _ _ _); eexists; reflexivity.
Qed.

(** The attempt throws exactly when [call_fails] says so. *)
Lemma attempt_throws (G : Type)
    (generateContent : G -> Request -> Try Response)
    (JSON_parse : string -> Try CommentaryResponse)
    (client : G) (playerScore cpuScore : Z) (lastEvent : string) :
  call_fails generateContent JSON_parse client playerScore cpuScore lastEvent
  = match attempt G generateContent JSON_parse client playerScore cpuScore lastEvent with
    | inl _ => true
    | inr _ => false
    end.
Proof.
  unfold call_fails, attempt, bind.
  destruct (generateContent _ _) as [e|response]; [reflexivity|].
  destruct (response_text response) as [t|]; [|reflexivity].
  destruct (String.eqb t ""); [reflexivity|]. simpl.
  destruct (JSON_parse t); reflexivity.
Qed.

(** C7, amended: whenever the gateway is unavailable or its call fails, the
    promise of [generateCommentary] is fulfilled, never rejected, with a
    response of mood [neutral] whose text is fixed by the kind of failure
    alone: "AI Commentary unavailable (Check API Key)." without a client,
    "Was für ein Spiel! (AI Offline)" when the call throws, answers no text
    or does not parse. *)
Theorem generateCommentary_fallback (G : Type)
    (generateContent : G -> Request -> Try Response)
    (JSON_parse : string -> Try CommentaryResponse)
    (ai : option G) (playerScore cpuScore : Z) (lastEvent : string)
    (k : FailureKind) :
  failure generateContent JSON_parse ai playerScore cpuScore lastEvent = Some k ->
  generateCommentary G generateContent JSON_parse ai playerScore cpuScore lastEvent
  = Fulfilled (mkCommentary (fallback_text k) neutral).
Proof.
  unfold failure. destruct ai as [client|].
  - rewrite attempt_throws. simpl.
    destruct (attempt _ _ _ _ _ _ _); [|discriminate].
    intros [= <-]. reflexivity.
  - intros [= <-]. reflexivity.
Qed.

Lemma generateCommentary_fallback_witness :
  generateCommentary unit rejecting_call parse_ok_only (Some tt) 1 0 "x"
  = Fulfilled (mkCommentary "Was für ein Spiel! (AI Offline)" neutral)
  /\ generateCommentary unit empty_call parse_ok_only (Some tt) 1 0 "x"
     = Fulfilled (mkCommentary "Was für ein Spiel! (AI Offline)" neutral)
  /\ generateCommentary unit garbled_call parse_ok_only (Some tt) 1 0 "x"
     = Fulfilled (mkCommentary "Was für ein Spiel! (AI Offline)" neutral)
  /\ generateCommentary unit good_call parse_ok_only None 1 0 "x"
     = Fulfilled (mkCommentary "AI Commentary unavailable (Check API Key)." neutral)
  /\ generateCommentary unit good_call parse_ok_only (Some tt) 1 0 "x"
     = Fulfilled (mkCommentary "Ass!" excited).
Proof.
  split; [|split; [|split; [|split]]].
  - apply (generateCommentary_fallback unit rejecting_call parse_ok_only
             (Some tt) 1 0 "x" CallFailed). reflexivity.
  - apply (generateCommentary_fallback unit empty_call parse_ok_only
             (Some tt) 1 0 "x" CallFailed). reflexivity.
  - apply (generateCommentary_fallback unit garbled_call parse_ok_only
             (Some tt) 1 0 "x" CallFailed). reflexivity.
  - apply (generateCommentary_fallback unit good_call parse_ok_only
             None 1 0 "x" NoClient). reflexivity.
  - reflexivity.
Defined.

(** * More of the tick *)

(** ** The protocol of a point *)

Lemma resolve_scoreRef (keys : Keys) (r : Refs) :
  scoreRef (resolve keys r) = scoreRef r.
Proof. unfold resolve. cbn [scoreRef]. reflexivity. Qed.

(** The scoring stage: nothing, or one point for the side opposite to the
    half the ball is in. *)
Lemma scoring_cases (r : Refs) :
  scoring r = (r, [])
  \/ exists winner,
       half (x (pos (ballRef r))) = other winner
       /\ scoring r
          = (resetPositions (other winner)
               (with_score r (bump winner (scoreRef r))),
             [setScore (bump winner (scoreRef r)); onPointEnd winner;
              setGameState POINT_SCORED]).
Proof.
  unfold scoring, half.
  destruct (Num.ge _ _); [|left; reflexivity].
  right. destruct (Num.lt _ _).
  - exists Cpu. split; reflexivity.
  - exists Player. split; reflexivity.
Qed.

(** X1: a tick of play either ends collision resolution without a point, no
    callback being called and the score being what it was, or scores exactly
    one point: the winner is the side opposite to the half the ball is in, the
    winner's counter alone grows by 1, the callbacks are [setScore] with the
    new score, [onPointEnd] with the winner and [setGameState] with
    [POINT_SCORED], in this order, and the cells are reset for the other side
    as server. *)
Theorem tick_scores_at_most_once (keys : Keys) (r : Refs) :
  scoreRef (resolve keys r) = scoreRef r
  /\ (update PLAYING keys r = (resolve keys r, [])
      \/ exists winner,
           half (x (pos (ballRef (resolve keys r)))) = other winner
           /\ update PLAYING keys r
              = (resetPositions (other winner)
                   (with_score (resolve keys r) (bump winner (scoreRef r))),
                 [setScore (bump winner (scoreRef r)); onPointEnd winner;
                  setGameState POINT_SCORED])).
Proof.
  split; [apply resolve_scoreRef|].
  unfold update. rewrite <- (resolve_scoreRef keys r).
  exact (scoring_cases (resolve keys r)).
Qed.

(** The score after a tick: the old one, or the old one with a point more
    for one side. *)
Lemma tick_score (keys : Keys) (r : Refs) :
  scoreRef (fst (update PLAYING keys r)) = scoreRef r
  \/ exists winner,
       scoreRef (fst (update PLAYING keys r)) = bump winner (scoreRef r).
Proof.
  unfold update. rewrite <- (resolve_scoreRef keys r).
  destruct (scoring_cases (resolve keys r)) as [E|[w [_ E]]]; rewrite E.
  - left. reflexivity.
  - right. exists w. reflexivity.
Qed.

Lemma run_counter {A : Type} (step : Keys -> A -> A) (f : A -> Z) :
  (forall keys a, (f a <= f (step keys a) <= f a + 1)%Z) ->
  forall ticks a,
    (f a <= f (run step ticks a) <= f a + Z.of_nat (List.length ticks))%Z.
Proof.
  intros Hstep ticks. induction ticks as [|keys rest IH]; intros a.
  - simpl. lia.
  - specialize (IH (step keys a)). specialize (Hstep keys a).
    cbn [run List.length]. lia.
Qed.

(** X2: along any run of ticks of play no counter ever goes down, and the
    two counters together grow by at most one point per tick. *)
Theorem score_grows_by_at_most_one_per_tick (ticks : list Keys) (r : Refs) :
  (player (scoreRef r) <= player (scoreRef (play ticks r)))%Z
  /\ (cpu (scoreRef r) <= cpu (scoreRef (play ticks r)))%Z
  /\ (player (scoreRef (play ticks r)) + cpu (scoreRef (play ticks r))
      <= player (scoreRef r) + cpu (scoreRef r) + Z.of_nat (List.length ticks))%Z.
Proof.
  assert (P : forall keys a,
             (player (scoreRef a)
              <= player (scoreRef (fst (update PLAYING keys a)))
              <= player (scoreRef a) + 1)%Z).
  { intros keys a. destruct (tick_score keys a) as [E|[[] E]]; rewrite E;
      simpl; lia. }
  assert (C : forall keys a,
             (cpu (scoreRef a)
              <= cpu (scoreRef (fst (update PLAYING keys a)))
              <= cpu (scoreRef a) + 1)%Z).
  { intros keys a. destruct (tick_score keys a) as [E|[[] E]]; rewrite E;
      simpl; lia. }
  assert (S : forall keys a,
             (player (scoreRef a) + cpu (scoreRef a)
              <= player (scoreRef (fst (update PLAYING keys a)))
                 + cpu (scoreRef (fst (update PLAYING keys a)))
              <= player (scoreRef a) + cpu (scoreRef a) + 1)%Z).
  { intros keys a. destruct (tick_score keys a) as [E|[[] E]]; rewrite E;
      simpl; lia. }
  pose proof (run_counter (fun keys a => fst (update PLAYING keys a))
                (fun a => player (scoreRef a)) P ticks r) as HP.
  pose proof (run_counter (fun keys a => fst (update PLAYING keys a))
                (fun a => cpu (scoreRef a)) C ticks r) as HC.
  pose proof (run_counter (fun keys a => fst (update PLAYING keys a))
                (fun a => (player (scoreRef a) + cpu (scoreRef a))%Z) S ticks r)
    as HS.
  unfold play. cbv beta in HP, HC, HS. lia.
Qed.

(** ** What is never written *)

Lemma make_player_movement (keys : Keys) (p : Entity) :
  radius (player_movement keys p) = radius p
  /\ color (player_movement keys p) = color p.
Proof.
  unfold player_movement.
  destruct (keys "ArrowLeft"%string || keys "KeyA"%string);
    [|destruct (keys "ArrowRight"%string || keys "KeyD"%string)];
    destruct (keys "ArrowUp"%string || keys "KeyW"%string); simpl;
    destruct (onGround p); split; reflexivity.
Qed.

Lemma make_cpu_ai (c ball : Entity) :
  radius (cpu_ai c ball) = radius c /\ color (cpu_ai c ball) = color c.
Proof.
  unfold cpu_ai. destruct (cpu_jumps c ball); split; reflexivity.
Qed.

Lemma make_body_physics (who : Who) (p : Entity) :
  radius (body_physics who p) = radius p
  /\ color (body_physics who p) = color p.
Proof.
  unfold body_physics, net_collision, wall_collision, floor_collision.
  destruct who;
    repeat match goal with
           | |- context [if ?c then _ else _] => destruct c
           end; split; reflexivity.
Qed.

Lemma make_checkCircleCollision (c1 c2 : Entity) :
  radius (checkCircleCollision c1 c2) = radius c2
  /\ color (checkCircleCollision c1 c2) = color c2
  /\ onGround (checkCircleCollision c1 c2) = onGround c2.
Proof.
  unfold checkCircleCollision. destruct (Num.lt _ _); repeat split.
Qed.

Lemma make_wall_bounce (b : Entity) :
  color (wall_bounce b) = color b /\ onGround (wall_bounce b) = onGround b.
Proof.
  unfold wall_bounce.
  destruct (Num.lt (x (pos b)) (radius b)); destruct (Num.gt _ _);
    split; reflexivity.
Qed.

Lemma make_ceiling_bounce (b : Entity) :
  color (ceiling_bounce b) = color b
  /\ onGround (ceiling_bounce b) = onGround b.
Proof. unfold ceiling_bounce. destruct (Num.lt _ _); split; reflexivity. Qed.

Lemma make_net_ball (b : Entity) :
  color (net_ball b) = color b /\ onGround (net_ball b) = onGround b.
Proof.
  unfold net_ball.
  destruct (Num.lt _ _); [split; reflexivity|].
  destruct (Num.gt _ _); [|split; reflexivity].
  destruct (Num.lt _ _); [|split; reflexivity].
  destruct (Num.lt _ _); split; reflexivity.
Qed.

Lemma make_ball_stages (b : Entity) :
  let b' := net_ball (ceiling_bounce (wall_bounce (integrate_ball b))) in
  radius b' = radius b /\ color b' = color b /\ onGround b' = onGround b.
Proof.
  intros b'. subst b'.
  rewrite radius_net_ball, radius_ceiling_bounce, radius_wall_bounce.
  destruct (make_net_ball (ceiling_bounce (wall_bounce (integrate_ball b))))
    as [N1 N2].
  destruct (make_ceiling_bounce (wall_bounce (integrate_ball b))) as [C1 C2].
  destruct (make_wall_bounce (integrate_ball b)) as [W1 W2].
  rewrite N1, N2, C1, C2, W1, W2. repeat split.
Qed.

Lemma same_make_refl (r : Refs) : same_make r r.
Proof. repeat split. Qed.

Lemma same_make_resolve (keys : Keys) (r : Refs) :
  same_make r (resolve keys r).
Proof.
  unfold same_make, resolve. cbn [playerRef cpuRef ballRef].
  destruct (make_player_movement keys (playerRef r)) as [P1 P2].
  destruct (make_cpu_ai (cpuRef r) (ballRef r)) as [C1 C2].
  destruct (make_body_physics Player (player_movement keys (playerRef r)))
    as [P3 P4].
  destruct (make_body_physics Cpu (cpu_ai (cpuRef r) (ballRef r))) as [C3 C4].
  destruct (make_ball_stages (ballRef r)) as (B1 & B2 & B3).
  set (b := net_ball _) in *.
  set (p := body_physics Player _) in *.
  set (c := body_physics Cpu _) in *.
  destruct (make_checkCircleCollision p b) as (D1 & D2 & D3).
  destruct (make_checkCircleCollision c (checkCircleCollision p b))
    as (E1 & E2 & E3).
  repeat split; congruence.
Qed.

Lemma same_make_scoring (r : Refs) : same_make r (fst (scoring r)).
Proof.
  unfold scoring.
  destruct (Num.ge _ _); [|apply same_make_refl].
  destruct (Num.lt _ _); repeat split.
Qed.

Lemma same_make_tick (r : Refs) (keys : Keys) (a : Refs) :
  same_make r a -> same_make r (fst (update PLAYING keys a)).
Proof.
  intros H.
  pose proof (same_make_resolve keys a) as H1.
  pose proof (same_make_scoring (resolve keys a)) as H2.
  change (fst (update PLAYING keys a)) with (fst (scoring (resolve keys a))).
  unfold same_make in *.
  repeat match goal with H : _ /\ _ |- _ => destruct H end.
  repeat split; congruence.
Qed.

(** X3: no run of ticks of play, with or without points, changes a radius
    or a colour, or the ball's [onGround] flag. *)
Theorem play_keeps_the_make (ticks : list Keys) (r : Refs) :
  same_make r (play ticks r).
Proof.
  apply (run_invariant (fun keys a => fst (update PLAYING keys a))
           (same_make r) (same_make_tick r)).
  apply same_make_refl.
Qed.

(** ** A ball that is lost *)

Lemma lost_integrate_ball (b : Entity) : lost b -> lost (integrate_ball b).
Proof.
  destruct b as [[px py] [vx vy] rb cb gb]. unfold lost, integrate_ball.
  cbn [pos vel x y set_pos_x set_pos_y set_pos set_vel_x set_vel_y set_vel].
  intros [[= -> ->] [= -> ->]].
  repeat rewrite ?IEEE.add_nan_l, ?IEEE.mul_nan_l. split; reflexivity.
Qed.

Lemma lost_wall_bounce (b : Entity) : lost b -> wall_bounce b = b.
Proof.
  destruct b as [[px py] [vx vy] rb cb gb]. unfold lost, wall_bounce.
  cbn [pos vel x y radius]. intros [[= -> ->] [= -> ->]].
  unfold Num.lt, Num.gt. rewrite IEEE.ltb_nan_l. cbn [pos vel x y radius].
  rewrite IEEE.ltb_nan_r. reflexivity.
Qed.

Lemma lost_ceiling_bounce (b : Entity) : lost b -> ceiling_bounce b = b.
Proof.
  destruct b as [[px py] [vx vy] rb cb gb]. unfold lost, ceiling_bounce.
  cbn [pos vel x y radius]. intros [[= -> ->] [= -> ->]].
  unfold Num.lt. rewrite IEEE.ltb_nan_l. reflexivity.
Qed.

Lemma lost_net_ball (b : Entity) : lost b -> net_ball b = b.
Proof.
  destruct b as [[px py] [vx vy] rb cb gb]. unfold lost, net_ball.
  cbn [pos vel x y radius]. intros [[= -> ->] [= -> ->]].
  unfold Math.pow2. rewrite !IEEE.sub_nan_l, !IEEE.mul_nan_l, IEEE.add_nan_l.
  change (Math.sqrt nan) with nan.
  unfold Num.lt, Num.gt. rewrite IEEE.ltb_nan_l, IEEE.ltb_nan_r. reflexivity.
Qed.

Lemma lost_checkCircleCollision (c1 b : Entity) :
  lost b -> checkCircleCollision c1 b = b.
Proof.
  destruct b as [[px py] [vx vy] rb cb gb]. unfold lost, checkCircleCollision.
  cbn [pos vel x y radius]. intros [[= -> ->] [= -> ->]].
  rewrite !IEEE.sub_nan_r, !IEEE.mul_nan_l, IEEE.add_nan_l.
  change (Math.sqrt nan) with nan.
  unfold Num.lt. rewrite IEEE.ltb_nan_l. reflexivity.
Qed.

Lemma lost_tick (keys : Keys) (r : Refs) :
  lost (ballRef r) ->
  update PLAYING keys r = (resolve keys r, [])
  /\ lost (ballRef (resolve keys r)).
Proof.
  intros H. apply lost_integrate_ball in H.
  assert (L : lost (ballRef (resolve keys r))).
  { unfold resolve. cbn [ballRef].
    rewrite (lost_wall_bounce _ H), (lost_ceiling_bounce _ H),
      (lost_net_ball _ H), !(lost_checkCircleCollision _ _ H).
    exact H. }
  split; [|exact L].
  unfold update, scoring.
  destruct L as [Lp _]. rewrite Lp. cbn [x y].
  unfold Num.ge. rewrite IEEE.leb_nan_r. reflexivity.
Qed.

(** X4: a ball whose position and velocity are NaN, as a hit with coinciding
    centres leaves it, stays so for ever: in every later tick of play no
    boundary, net or body test sees it, it never counts as on the ground, no
    callback is called and the score stands still; the rally does not
    end. *)
Theorem lost_ball_never_lands (ticks : list Keys) (keys : Keys) (r : Refs) :
  lost (ballRef r) ->
  update PLAYING keys r = (resolve keys r, [])
  /\ lost (ballRef (play ticks r))
  /\ scoreRef (play ticks r) = scoreRef r.
Proof.
  intros H. split; [apply lost_tick, H|].
  apply (run_invariant (fun keys a => fst (update PLAYING keys a))
           (fun a => lost (ballRef a) /\ scoreRef a = scoreRef r)).
  - intros k a [La Sa]. destruct (lost_tick k a La) as [E L].
    rewrite E. cbn [fst]. split; [exact L|]. rewrite <- Sa. reflexivity.
  - split; [exact H|reflexivity].
Qed.

Lemma lost_ball_never_lands_witness :
  lost (ballRef after_concentric_hit)
  /\ update PLAYING no_keys after_concentric_hit
     = (resolve no_keys after_concentric_hit, [])
  /\ scoreRef (play [no_keys; no_keys; no_keys] after_concentric_hit)
     = mkScore 1 1.
Proof.
  assert (H : lost (ballRef after_concentric_hit))
    by (split; vm_compute; reflexivity).
  destruct (lost_ball_never_lands [no_keys; no_keys; no_keys] no_keys
              after_concentric_hit H) as (E & _ & S).
  exact (conj H (conj E S)).
Defined.

(** ** Up and down *)

Lemma vertical_player_movement (keys : Keys) (p : Entity) :
  vertical (player_movement keys p) = vjump (jump_held keys) (vertical p).
Proof.
  destruct p as [[px py] [vx vy] rp cp g].
  unfold player_movement, jump_held, vertical, vjump.
  destruct (keys "ArrowLeft"%string || keys "KeyA"%string);
    [|destruct (keys "ArrowRight"%string || keys "KeyD"%string)];
    destruct (keys "ArrowUp"%string || keys "KeyW"%string);
    destruct g; reflexivity.
Qed.

Lemma vertical_cpu_ai (c ball : Entity) :
  vertical (cpu_ai c ball) = vjump (cpu_jumps c ball) (vertical c).
Proof.
  unfold cpu_ai, vertical, vjump.
  destruct (cpu_jumps c ball) eqn:E; simpl.
  - unfold cpu_jumps in E. apply andb_prop in E as [_ ->]. reflexivity.
  - reflexivity.
Qed.

Lemma vertical_body_physics (who : Who) (p : Entity) :
  vertical (body_physics who p) = vphysics (vertical p).
Proof.
  unfold body_physics, net_collision, wall_collision, floor_collision,
    integrate_body, vertical, vphysics.
  cbn [pos vel x y onGround radius set_pos_x set_pos_y set_pos set_vel_x
       set_vel_y set_vel set_onGround].
  destruct (Num.gt (y (pos p) + (y (vel p) + GRAVITY)) CANVAS_HEIGHT);
    cbn [pos vel x y onGround radius set_pos_x set_pos_y set_pos set_vel_x
         set_vel_y set_vel set_onGround];
    destruct who;
    repeat match goal with
           | |- context [if ?c then _ else _] => destruct c
           end; reflexivity.
Qed.

Lemma vstep_grounded (jump : bool) (s : float * float * bool) :
  (snd s = true -> fst (fst s) = CANVAS_HEIGHT /\ snd (fst s) = 0) ->
  snd (vstep jump s) = true ->
  fst (fst (vstep jump s)) = CANVAS_HEIGHT /\ snd (fst (vstep jump s)) = 0.
Proof.
  destruct s as [[py vy] g]. unfold vstep, vjump, vphysics. cbn [fst snd].
  intros H. destruct g.
  - destruct (H eq_refl) as [-> ->]. destruct jump; cbn [andb].
    + destruct (Num.gt _ _); cbn [fst snd]; [split; reflexivity|discriminate].
    + change (Num.gt (CANVAS_HEIGHT + (0 + GRAVITY)) CANVAS_HEIGHT) with true.
      cbn [fst snd]. split; reflexivity.
  - rewrite andb_false_r.
    destruct (Num.gt _ _); cbn [fst snd]; [split; reflexivity|discriminate].
Qed.

Lemma grounded_of_vertical (q p : Entity) (jump : bool) :
  vertical q = vstep jump (vertical p) ->
  grounded_at_rest p -> grounded_at_rest q.
Proof.
  intros E H G.
  assert (Hs : snd (vertical p) = true ->
               fst (fst (vertical p)) = CANVAS_HEIGHT
               /\ snd (fst (vertical p)) = 0) by exact H.
  pose proof (vstep_grounded jump (vertical p) Hs) as K.
  rewrite <- E in K. exact (K G).
Qed.

Lemma vertical_player_tick (keys : Keys) (p : Entity) :
  vertical (player_tick keys p) = vstep (jump_held keys) (vertical p).
Proof.
  unfold player_tick, vstep.
  rewrite vertical_body_physics, vertical_player_movement. reflexivity.
Qed.

Lemma vertical_cpu_tick (c ball : Entity) :
  vertical (body_physics Cpu (cpu_ai c ball))
  = vstep (cpu_jumps c ball) (vertical c).
Proof.
  unfold vstep. rewrite vertical_body_physics, vertical_cpu_ai. reflexivity.
Qed.

Lemma grounded_player_tick (keys : Keys) (p : Entity) :
  grounded_at_rest p -> grounded_at_rest (player_tick keys p).
Proof.
  apply (grounded_of_vertical _ p (jump_held keys)), vertical_player_tick.
Qed.

Lemma grounded_cpu_tick (c ball : Entity) :
  grounded_at_rest c -> grounded_at_rest (body_physics Cpu (cpu_ai c ball)).
Proof.
  apply (grounded_of_vertical _ c (cpu_jumps c ball)), vertical_cpu_tick.
Qed.

Lemma resolve_playerRef (keys : Keys) (r : Refs) :
  playerRef (resolve keys r) = player_tick keys (playerRef r).
Proof. unfold resolve, player_tick. cbn [playerRef]. reflexivity. Qed.

Lemma resolve_cpuRef (keys : Keys) (r : Refs) :
  cpuRef (resolve keys r) = body_physics Cpu (cpu_ai (cpuRef r) (ballRef r)).
Proof. unfold resolve. cbn [cpuRef]. reflexivity. Qed.

Lemma grounded_tick (keys : Keys) (r : Refs) :
  grounded_at_rest (playerRef r) /\ grounded_at_rest (cpuRef r) ->
  grounded_at_rest (playerRef (fst (update PLAYING keys r)))
  /\ grounded_at_rest (cpuRef (fst (update PLAYING keys r))).
Proof.
  intros [Hp Hc].
  assert (R : grounded_at_rest (playerRef (resolve keys r))
              /\ grounded_at_rest (cpuRef (resolve keys r))).
  { rewrite resolve_playerRef, resolve_cpuRef. split.
    - exact (grounded_player_tick keys (playerRef r) Hp).
    - exact (grounded_cpu_tick (cpuRef r) (ballRef r) Hc). }
  change (fst (update PLAYING keys r)) with (fst (scoring (resolve keys r))).
  unfold scoring.
  destruct (Num.ge _ _); [|exact R].
  destruct (Num.lt _ _); split; intros _; split; reflexivity.
Qed.

(** X5: [onGround] means what it says.  If each body that is flagged as on
    the ground stands on the floor line (y = 400) with vertical velocity 0,
    as both do when the component is mounted, then the same holds after any
    run of ticks of play: the flag is raised only by a landing or a reset,
    and a jump lowers it. *)
Theorem grounded_bodies_are_at_rest (ticks : list Keys) (r : Refs) :
  grounded_at_rest (playerRef r) -> grounded_at_rest (cpuRef r) ->
  grounded_at_rest (playerRef (play ticks r))
  /\ grounded_at_rest (cpuRef (play ticks r)).
Proof.
  intros Hp Hc.
  apply (run_invariant (fun keys a => fst (update PLAYING keys a))
           (fun a => grounded_at_rest (playerRef a)
                     /\ grounded_at_rest (cpuRef a))
           grounded_tick).
  split; assumption.
Qed.

Lemma grounded_bodies_are_at_rest_witness :
  grounded_at_rest (playerRef (play [no_keys; handleKeyDown "KeyW" no_keys] mounted))
  /\ grounded_at_rest (cpuRef (play [no_keys; handleKeyDown "KeyW" no_keys] mounted)).
Proof.
  apply (grounded_bodies_are_at_rest
           [no_keys; handleKeyDown "KeyW" no_keys] mounted);
    intros _; split; reflexivity.
Defined.

(** The floor. *)
Lemma vstep_floor (jump : bool) (s : float * float * bool) :
  is_finite (fst (fst s)) = true -> is_nan (snd (fst s)) = false ->
  (fst (fst (vstep jump s)) <=? CANVAS_HEIGHT) = true.
Proof.
  destruct s as [[py vy] g]. unfold vstep, vjump, vphysics. cbn [fst snd].
  intros Fy Nv.
  assert (N : forall v, is_nan v = false ->
                is_nan (py + (v + GRAVITY)) = false).
  { intros v Hv. apply IEEE.add_not_nan_l; [exact Fy|].
    apply IEEE.add_not_nan; [exact Hv|reflexivity]. }
  destruct (jump && g); unfold Num.gt.
  - destruct (CANVAS_HEIGHT <? py + (JUMP_FORCE + GRAVITY)) eqn:E;
      cbn [fst snd]; [reflexivity|].
    apply IEEE.ltb_false_leb in E; [exact E|reflexivity|].
    apply N. reflexivity.
  - destruct (CANVAS_HEIGHT <? py + (vy + GRAVITY)) eqn:E;
      cbn [fst snd]; [reflexivity|].
    apply IEEE.ltb_false_leb in E; [exact E|reflexivity|].
    apply N. exact Nv.
Qed.

Lemma floor_of_vertical (q p : Entity) (jump : bool) :
  vertical q = vstep jump (vertical p) ->
  is_finite (y (pos p)) = true -> is_nan (y (vel p)) = false ->
  (y (pos q) <=? CANVAS_HEIGHT) = true.
Proof.
  intros E Fy Nv.
  pose proof (vstep_floor jump (vertical p) Fy Nv) as K.
  rewrite <- E in K. exact K.
Qed.

(** X6: after a tick of play no body is below the floor line: the height of
    the player and of the opponent is at most 400, when the tick starts from
    finite heights and vertical velocities that are numbers. *)
Theorem bodies_stay_above_the_floor (keys : Keys) (r : Refs) :
  is_finite (y (pos (playerRef r))) = true ->
  is_nan (y (vel (playerRef r))) = false ->
  is_finite (y (pos (cpuRef r))) = true ->
  is_nan (y (vel (cpuRef r))) = false ->
  (y (pos (playerRef (fst (update PLAYING keys r)))) <=? CANVAS_HEIGHT) = true
  /\ (y (pos (cpuRef (fst (update PLAYING keys r)))) <=? CANVAS_HEIGHT) = true.
Proof.
  intros Fp Np Fc Nc.
  assert (R : (y (pos (playerRef (resolve keys r))) <=? CANVAS_HEIGHT) = true
              /\ (y (pos (cpuRef (resolve keys r))) <=? CANVAS_HEIGHT) = true).
  { rewrite resolve_playerRef, resolve_cpuRef. split.
    - apply (floor_of_vertical _ (playerRef r) (jump_held keys));
        [apply vertical_player_tick| |]; assumption.
    - apply (floor_of_vertical _ (cpuRef r)
               (cpu_jumps (cpuRef r) (ballRef r)));
        [apply vertical_cpu_tick| |]; assumption. }
  change (fst (update PLAYING keys r)) with (fst (scoring (resolve keys r))).
  unfold scoring.
  destruct (Num.ge _ _); [|exact R].
  destruct (Num.lt _ _); split; reflexivity.
Qed.

Lemma bodies_stay_above_the_floor_witness :
  (y (pos (playerRef (fst (update PLAYING no_keys left_corner))))
   <=? CANVAS_HEIGHT) = true
  /\ (y (pos (cpuRef (fst (update PLAYING no_keys left_corner))))
      <=? CANVAS_HEIGHT) = true.
Proof.
  apply (bodies_stay_above_the_floor no_keys left_corner); reflexivity.
Defined.

(** ** The jump *)








(** ** The ball and the court *)

Lemma checkCircleCollision_miss (c1 c2 : Entity) :
  collides c1 c2 = false -> checkCircleCollision c1 c2 = c2.
Proof.
  unfold collides, dist, checkCircleCollision. intros ->. reflexivity.
Qed.

Lemma ceiling_bounce_keeps_x (b : Entity) :
  x (pos (ceiling_bounce b)) = x (pos b).
Proof. unfold ceiling_bounce. destruct (Num.lt _ _); reflexivity. Qed.

(** Without a hit on the top of the net, the net check keeps a ball of
    radius 12 that is in the court in the court. *)
Lemma net_ball_in_court (b : Entity) :
  radius b = BALL_RADIUS -> hits_post b = false ->
  in_court b = true -> in_court (net_ball b) = true.
Proof.
  intros Hr Hp Hc. unfold hits_post in Hp. unfold net_ball. rewrite Hp.
  destruct (Num.gt (y (pos b)) (CANVAS_HEIGHT - NET_HEIGHT)); [|exact Hc].
  destruct (Num.lt (Math.abs (x (pos b) - NET_X)) (radius b + 5)); [|exact Hc].
  unfold in_court.
  destruct (Num.lt (x (pos (set_vel_x b (x (vel b) * - BOUNCE)))) NET_X);
    cbn [radius pos x y set_pos_x set_pos set_vel_x set_vel]; rewrite !Hr;
    reflexivity.
Qed.

Lemma resolve_ballRef (keys : Keys) (r : Refs) :
  ballRef (resolve keys r)
  = checkCircleCollision (cpuRef (resolve keys r))
      (checkCircleCollision (playerRef (resolve keys r))
         (net_ball (ceiling_bounce (wall_bounce (integrate_ball (ballRef r)))))).
Proof. unfold resolve. cbn [playerRef cpuRef ballRef]. reflexivity. Qed.

(** X8: the ball leaves the court only when it is pushed.  In a tick of
    play that starts with a ball of radius 12, a finite horizontal position
    and a horizontal velocity that is a number, if the ball does not hit the
    top of the net and neither body collides with it, the ball ends
    collision resolution within [radius, width - radius]. *)
Theorem ball_stays_in_court_unless_pushed (keys : Keys) (r : Refs) :
  radius (ballRef r) = BALL_RADIUS ->
  is_finite (x (pos (ballRef r))) = true ->
  is_nan (x (vel (ballRef r))) = false ->
  let b := ceiling_bounce (wall_bounce (integrate_ball (ballRef r))) in
  hits_post b = false ->
  collides (playerRef (resolve keys r)) (net_ball b) = false ->
  collides (cpuRef (resolve keys r)) (net_ball b) = false ->
  ballRef (resolve keys r) = net_ball b
  /\ in_court (ballRef (resolve keys r)) = true.
Proof.
  intros Hr Fx Nv b Hp Hc1 Hc2.
  assert (E : ballRef (resolve keys r) = net_ball b).
  { rewrite resolve_ballRef. fold b.
    rewrite (checkCircleCollision_miss _ _ Hc1).
    apply checkCircleCollision_miss, Hc2. }
  split; [exact E|]. rewrite E.
  apply net_ball_in_court; [| exact Hp |].
  - subst b. rewrite radius_ceiling_bounce, radius_wall_bounce. exact Hr.
  - subst b. unfold in_court.
    rewrite ceiling_bounce_keeps_x, radius_ceiling_bounce.
    apply wall_bounce_bounds; [exact Hr|].
    cbn [integrate_ball pos x y set_pos_x set_pos_y set_pos set_vel_x
         set_vel_y set_vel vel].
    apply IEEE.add_not_nan_l; [assumption|].
    apply IEEE.mul_not_nan; try reflexivity. assumption.
Qed.

Lemma ball_stays_in_court_unless_pushed_witness :
  in_court (ballRef (resolve no_keys mid_air)) = true.
Proof.
  apply (ball_stays_in_court_unless_pushed no_keys mid_air);
    vm_compute; reflexivity.
Defined.

(** X9: the side of the net keeps its band clear.  After the net check, a
    ball of radius 12 that is below the top of the net (y > 300) and did not
    hit the top is not within radius + 5 of the net line: a ball found
    inside the band is put at x = 383 or x = 417, on the side it is on, with
    its horizontal velocity turned round and multiplied by 0.7; its height
    and vertical velocity are not touched. *)
Theorem net_side_clears_the_band (b : Entity) :
  radius b = BALL_RADIUS -> hits_post b = false ->
  Num.gt (y (pos b)) (CANVAS_HEIGHT - NET_HEIGHT) = true ->
  in_net_band (net_ball b) = false
  /\ y (pos (net_ball b)) = y (pos b)
  /\ y (vel (net_ball b)) = y (vel b)
  /\ (in_net_band b = true ->
      x (vel (net_ball b)) = x (vel b) * - BOUNCE
      /\ x (pos (net_ball b)) = if Num.lt (x (pos b)) NET_X then 383 else 417).
Proof.
  intros Hr Hp Hy. unfold hits_post in Hp. unfold net_ball. rewrite Hp, Hy.
  unfold in_net_band.
  destruct (Num.lt (Math.abs (x (pos b) - NET_X)) (radius b + 5)) eqn:E.
  - cbn [radius pos vel x y set_pos_x set_pos set_vel_x set_vel].
    destruct (Num.lt (x (pos b)) NET_X);
      cbn [radius pos vel x y set_pos_x set_pos set_vel_x set_vel];
      rewrite !Hr;
      (split; [reflexivity|]); (split; [reflexivity|]);
      (split; [reflexivity|]); intros _; split; reflexivity.
  - rewrite E. split; [reflexivity|]. split; [reflexivity|].
    split; [reflexivity|]. discriminate.
Qed.

Lemma net_side_clears_the_band_witness :
  in_net_band ball_in_the_net = true
  /\ in_net_band (net_ball ball_in_the_net) = false
  /\ x (pos (net_ball ball_in_the_net)) = 383.
Proof.
  destruct (net_side_clears_the_band ball_in_the_net eq_refl eq_refl eq_refl)
    as (A & _ & _ & B).
  destruct (B eq_refl) as [_ C].
  exact (conj eq_refl (conj A C)).
Defined.

(** ** The keys *)

(** X10: steering has no memory and left wins.  Whatever the player's
    velocity and the other keys are: once a left key (ArrowLeft or KeyA) has
    gone down the next tick sets the horizontal velocity to -6, also with a
    right key held; with both left keys released and a right key down it is
    6; and once the four steering keys have been released it is 0.  The
    handlers change the code they are called for and no other. *)
Theorem steering_has_no_memory (keys : Keys) (p : Entity) :
  x (vel (player_movement (handleKeyDown "ArrowLeft" keys) p)) = -6
  /\ x (vel (player_movement (handleKeyDown "KeyA" keys) p)) = -6
  /\ x (vel (player_movement
               (handleKeyDown "ArrowRight"
                  (handleKeyUp "ArrowLeft" (handleKeyUp "KeyA" keys))) p)) = 6
  /\ x (vel (player_movement
               (handleKeyDown "KeyD"
                  (handleKeyUp "ArrowLeft" (handleKeyUp "KeyA" keys))) p)) = 6
  /\ x (vel (player_movement (release_steering keys) p)) = 0
  /\ (forall code c, c <> code ->
        handleKeyDown code keys c = keys c /\ handleKeyUp code keys c = keys c)
  /\ (forall code, handleKeyUp code (handleKeyDown code keys) code = false
                   /\ handleKeyDown code (handleKeyUp code keys) code = true).
Proof.
  destruct p as [[px py] [vx vy] rp cp g].
  unfold player_movement, release_steering, handleKeyDown, handleKeyUp.
  cbn [String.eqb Ascii.eqb Bool.eqb andb orb].
  repeat split.
  - destruct (keys "ArrowUp"%string || keys "KeyW"%string); destruct g; reflexivity.
  - rewrite orb_true_r.
    destruct (keys "ArrowUp"%string || keys "KeyW"%string); destruct g; reflexivity.
  - destruct (keys "ArrowUp"%string || keys "KeyW"%string); destruct g; reflexivity.
  - rewrite orb_true_r.
    destruct (keys "ArrowUp"%string || keys "KeyW"%string); destruct g; reflexivity.
  - destruct (keys "ArrowUp"%string || keys "KeyW"%string); destruct g; reflexivity.
  - apply String.eqb_neq in H. rewrite H. reflexivity.
  - apply String.eqb_neq in H. rewrite H. reflexivity.
  - rewrite String.eqb_refl. reflexivity.
  - rewrite String.eqb_refl. reflexivity.
Qed.

(** ** What is drawn *)

(** X11: each body looks at the net.  Along any run of ticks of play that
    starts with the bodies within their bounds (as they are when the
    component is mounted), [drawBroccoli] finds the player on the left of the
    net line, facing right with its eyes shifted by 8, and the opponent on
    the right, facing left with its eyes shifted by -8. *)
Theorem bodies_look_at_the_net (ticks : list Keys) (r : Refs) :
  bodies_in_bounds r ->
  facingRight (playerRef (play ticks r)) = true
  /\ eyeXOffset (playerRef (play ticks r)) = 8
  /\ facingRight (cpuRef (play ticks r)) = false
  /\ eyeXOffset (cpuRef (play ticks r)) = -8.
Proof.
  intros H.
  destruct (bodies_in_bounds_play ticks r H) as ((Rp & _ & Np) & (Rc & _ & Nc)).
  set (p := playerRef (play ticks r)) in *.
  set (c := cpuRef (play ticks r)) in *.
  rewrite Rp in Np. rewrite Rc in Nc.
  assert (Fp : facingRight p = true).
  { unfold facingRight, Num.lt.
    apply (IEEE.leb_ltb_trans _ _ _ Np). reflexivity. }
  assert (Fc : facingRight c = false).
  { unfold facingRight, Num.lt.
    destruct (x (pos c) <? NET_X) eqn:E; [|reflexivity].
    pose proof (IEEE.leb_ltb_trans _ _ _ Nc E) as K.
    vm_compute in K. discriminate K. }
  unfold eyeXOffset. rewrite Fp, Fc. repeat split.
Qed.

Lemma bodies_look_at_the_net_witness :
  facingRight (playerRef (play [no_keys; no_keys] mounted)) = true
  /\ facingRight (cpuRef (play [no_keys; no_keys] mounted)) = false.
Proof.
  destruct (bodies_look_at_the_net [no_keys; no_keys] mounted) as (A & _ & B & _).
  - repeat split; reflexivity.
  - exact (conj A B).
Defined.

(** * The component *)

(** ** Phases and the score on display *)

Lemma deliver_no_calls (s : App.State) : fold_left App.deliver [] s = s.
Proof. reflexivity. Qed.

(** The world after a frame, from what the tick does. *)
Lemma frame_cases (w : App.World) (keys : Keys) :
  App.step w (App.Frame keys) = w
  \/ (App.gameState (App.state w) = PLAYING
      /\ (App.step w (App.Frame keys)
          = App.mkWorld (App.state w) (resolve keys (App.refs w))
          \/ exists winner,
               App.step w (App.Frame keys)
               = App.mkWorld
                   (App.mkState POINT_SCORED
                      (bump winner (scoreRef (App.refs w)))
                      (App.commentary (App.state w))
                      (App.isCommentating (App.state w)))
                   (resetPositions (other winner)
                      (with_score (resolve keys (App.refs w))
                         (bump winner (scoreRef (App.refs w))))))).
Proof.
  destruct w as [s r]. unfold App.step. cbn [App.state App.refs].
  destruct (App.gameState s) eqn:G; try (left; reflexivity).
  right. split; [reflexivity|].
  unfold update. rewrite <- (resolve_scoreRef keys r).
  destruct (scoring_cases (resolve keys r)) as [E|[winner [_ E]]]; rewrite E.
  - left. reflexivity.
  - right. exists winner. reflexivity.
Qed.

Lemma step_keeps_in_use (w : App.World) (e : App.Event) :
  in_use (App.gameState (App.state w)) = true ->
  in_use (App.gameState (App.state (App.step w e))) = true.
Proof.
  intros H. destruct e as [| |keys].
  - unfold App.step.
    destruct (App.gameState (App.state w)) eqn:G; try discriminate H;
      try reflexivity; rewrite G; reflexivity.
  - unfold App.step.
    destruct (App.gameState (App.state w)) eqn:G; try discriminate H;
      try reflexivity; rewrite G; reflexivity.
  - destruct (frame_cases w keys) as [E|[G [E|[winner E]]]]; rewrite E.
    + exact H.
    + exact H.
    + reflexivity.
Qed.

Lemma step_keeps_in_step (w : App.World) (e : App.Event) :
  in_step w -> in_step (App.step w e).
Proof.
  unfold in_step. intros H. destruct e as [| |keys].
  - unfold App.step. destruct (App.gameState (App.state w)); exact H.
  - unfold App.step. destruct (App.gameState (App.state w)); exact H.
  - destruct (frame_cases w keys) as [E|[G [E|[winner E]]]]; rewrite E.
    + exact H.
    + exact H.
    + reflexivity.
Qed.

Lemma step_leaves_the_menu_for_good (w : App.World) (e : App.Event) :
  App.gameState (App.state w) <> MENU ->
  App.gameState (App.state (App.step w e)) <> MENU.
Proof.
  intros H. destruct e as [| |keys].
  - unfold App.step. destruct (App.gameState (App.state w)) eqn:G;
      try (rewrite G; discriminate). exfalso. apply H. reflexivity.
  - unfold App.step. destruct (App.gameState (App.state w)) eqn:G;
      try (rewrite G; discriminate);
      try (exfalso; apply H; reflexivity); discriminate.
  - destruct (frame_cases w keys) as [E|[G [E|[winner E]]]]; rewrite E.
    + exact H.
    + exact H.
    + discriminate.
Qed.

Lemma step_in_the_menu (w : App.World) (e : App.Event) :
  App.gameState (App.state w) = MENU ->
  App.step w e = w \/ e = App.StartClicked.
Proof.
  intros G. destruct e as [| |keys].
  - right. reflexivity.
  - left. unfold App.step. rewrite G. reflexivity.
  - left. destruct w as [s r]. unfold App.step. cbn [App.state App.refs] in *.
    rewrite G. reflexivity.
Qed.

Lemma GameState_eq_MENU (g : GameState) : g = MENU \/ g <> MENU.
Proof. destruct g; [left; reflexivity| | |]; right; discriminate. Qed.

Lemma run_events (P : App.World -> Prop) :
  (forall w e, P w -> P (App.step w e)) ->
  forall events w, P w -> P (fold_left App.step events w).
Proof.
  intros Hstep events. induction events as [|e rest IH]; intros w H.
  - exact H.
  - cbn [fold_left]. apply IH, Hstep, H.
Qed.

(** X12: whatever is clicked, whenever the timer fires and whatever frames
    run, from the mounted component on: the phase is never [GAME_OVER]; the
    score on display is the score of the canvas; as long as the phase is
    [MENU] nothing has moved and nothing is scored; and once the menu has
    been left it is never shown again. *)
Theorem component_invariants (events more : list App.Event) :
  let w := fold_left App.step events App.initialWorld in
  in_use (App.gameState (App.state w)) = true
  /\ in_step w
  /\ (App.gameState (App.state w) = MENU -> w = App.initialWorld)
  /\ (App.gameState (App.state w) <> MENU ->
      App.gameState (App.state (fold_left App.step more w)) <> MENU).
Proof.
  intros w. subst w.
  split; [|split; [|split]].
  - apply (run_events (fun w => in_use (App.gameState (App.state w)) = true)).
    + intros w e. apply step_keeps_in_use.
    + reflexivity.
  - apply (run_events in_step).
    + intros w e. apply step_keeps_in_step.
    + reflexivity.
  - apply (run_events
             (fun w => App.gameState (App.state w) = MENU
                       -> w = App.initialWorld)).
    + intros w e H G.
      destruct (GameState_eq_MENU (App.gameState (App.state w))) as [M|M].
      * destruct (step_in_the_menu w e M) as [E| ->].
        -- rewrite E. exact (H M).
        -- unfold App.step in G. rewrite M in G. discriminate G.
      * exfalso. exact (step_leaves_the_menu_for_good w e M G).
    + reflexivity.
  - apply (run_events (fun w => App.gameState (App.state w) <> MENU)).
    intros w e. apply step_leaves_the_menu_for_good.
Qed.

(** ** The commentary of a point *)

(** X13: the commentary is asked for with the score as it is after the
    point.  When the score on display is the score of the canvas, a frame
    starts no request, or exactly one: its two scores are the counters of the
    canvas after the tick, the winner's being one more than before, and its
    text is the sentence for the winner. *)
Theorem commentary_gets_the_new_score (w : App.World) (keys : Keys) :
  in_step w ->
  let w' := App.step w (App.Frame keys) in
  App.started w (App.Frame keys) = []
  \/ exists winner,
       scoreRef (App.refs w') = bump winner (scoreRef (App.refs w))
       /\ App.started w (App.Frame keys)
          = [(player (scoreRef (App.refs w')), cpu (scoreRef (App.refs w')),
              App.eventDescription winner)].
Proof.
  intros H. unfold in_step in H. cbv zeta. destruct w as [s r].
  unfold App.started, App.step. cbn [App.state App.refs] in *.
  destruct (App.gameState s); try (left; reflexivity).
  unfold update.
  destruct (scoring_cases (resolve keys r)) as [E|[winner [_ E]]]; rewrite E.
  - left. reflexivity.
  - right. exists winner. cbn [snd App.requests flat_map app App.refs].
    split; [reflexivity|].
    unfold App.commentaryArguments. rewrite H.
    destruct winner; cbn [bump player cpu resetPositions scoreRef with_score];
      rewrite ?Z.add_0_r; reflexivity.
Qed.

Lemma commentary_gets_the_new_score_witness :
  App.started world_before_point (App.Frame no_keys)
  = [(2%Z, 4%Z, "Sören sein Vater überlistet Mr. B!"%string)]
  /\ scoreRef (App.refs (App.step world_before_point (App.Frame no_keys)))
     = mkScore 2 4.
Proof.
  destruct (commentary_gets_the_new_score world_before_point no_keys eq_refl)
    as [E|[winner [S E]]].
  - vm_compute in E. discriminate E.
  - split; vm_compute; reflexivity.
Defined.

(** X14: the handler of a point always shows a commentary and always lowers
    its flag.  With [generateCommentary] for any client, call and parser, the
    handler raises [isCommentating], shows the response it gets and lowers
    the flag again; its [catch] is never entered, and the phase and the score
    are not touched. *)
Theorem handlePointEnd_always_shows_a_commentary (G : Type)
    (generateContent : G -> Request -> Try Response)
    (JSON_parse : string -> Try CommentaryResponse)
    (ai : option G) (s : App.State) (winner : Who) :
  exists result,
    App.handlePointEnd (generateCommentary G generateContent JSON_parse ai)
      (App.score s) winner
    = [App.setIsCommentating true; App.setCommentary result;
       App.setIsCommentating false]
    /\ fold_left App.perform
         (App.handlePointEnd (generateCommentary G generateContent JSON_parse ai)
            (App.score s) winner) s
       = App.mkState (App.gameState s) (App.score s) result false.
Proof.
  unfold App.handlePointEnd.
  destruct (App.commentaryArguments (App.score s) winner) as [[a b] d].
  destruct (generateCommentary_fulfils G generateContent JSON_parse ai a b d)
    as [v E].
  rewrite E. exists v. split; reflexivity.
Qed.

(** X15: a response is a fallback or what the parser made of the answer.
    The promise of [generateCommentary] is fulfilled with one of the two
    literal responses or with a response that [JSON.parse] returned for the
    text of the answer; and an answer with a text that is not empty and
    parses is returned as parsed, text and mood unchanged. *)
Theorem generateCommentary_returns_fallback_or_parsed (G : Type)
    (generateContent : G -> Request -> Try Response)
    (JSON_parse : string -> Try CommentaryResponse)
    (ai : option G) (playerScore cpuScore : Z) (lastEvent : string) :
  let result := generateCommentary G generateContent JSON_parse ai
                  playerScore cpuScore lastEvent in
  let request := mkRequest "gemini-2.5-flash"
                   (prompt playerScore cpuScore lastEvent) in
  (result = Fulfilled unavailable
   \/ result = Fulfilled offline
   \/ exists client response t v,
        ai = Some client
        /\ generateContent client request = inr response
        /\ response_text response = Some t
        /\ String.eqb t "" = false
        /\ JSON_parse t = inr v
        /\ result = Fulfilled v)
  /\ (forall client response t v,
        ai = Some client ->
        generateContent client request = inr response ->
        response_text response = Some t ->
        String.eqb t "" = false ->
        JSON_parse t = inr v ->
        result = Fulfilled v).
Proof.
  intros result request. subst result request. split.
  - destruct ai as [client|]; [|left; reflexivity]. right.
    unfold generateCommentary, attempt, bind.
    destruct (generateContent client _) as [e|response] eqn:E1;
      [left; reflexivity|].
    destruct (response_text response) as [t|] eqn:E2; [|left; reflexivity].
    destruct (String.eqb t "") eqn:E3; [left; reflexivity|].
    cbn [ret throw].
    destruct (JSON_parse t) as [e|v] eqn:E4; [left; reflexivity|].
    right. exists client, response, t, v. repeat split; assumption.
  - intros client response t v -> E1 E2 E3 E4.
    unfold generateCommentary, attempt, bind.
    rewrite E1, E2, E3. cbn [ret]. rewrite E4. reflexivity.
Qed.

(** ** The pause after a point *)



